(** * putter: an HTTP test double (putter.go)

    A shallow embedding of [putter.go]: the bounded request history kept by
    [storeCalls], the request handler [recordRequest] with its admission
    guard, special paths, body digesting and chaos stall, and the query
    parameter setter [setFromQueryParam].

    Go slices are modelled with their backing arrays in an explicit heap, so
    that the double buffering of [storeCalls] (two slices that swap backing
    arrays on every iteration) is followed as written. *)

From Stdlib Require Import ZArith Lia List String Ascii DecimalString DecimalPos.
From Stdlib.Strings Require Import Byte.
From stdpp Require Import base option list strings gmap.
Import ListNotations.

Local Open Scope string_scope.
Local Open Scope list_scope.
Local Open Scope Z_scope.

(* ================================================================== *)
(** * Go slices over a heap of backing arrays *)
(* ================================================================== *)

Module GoSlice.

Section Slices.
  Context {T : Type}.

(** The zero value of the element type: what [make] fills an array with. *)
  Variable zero : T.

(** The capacity the runtime picks when [append] has to reallocate, from
    the old capacity and the length needed.  The language only promises
    that the new array is large enough, so the model takes the larger of
    the needed length and the runtime's choice. *)
  Variable growslice : nat -> nat -> nat.

(** A slice header: backing array (an address in the heap), offset of the
    first element in it, length and capacity. *)
Record slice := Slice {
  s_arr : nat;
  s_off : nat;
  s_len : nat;
  s_cap : nat
}.

  Local Abbreviation heap := (list (list T)).

Definition cells (h : heap) (a : nat) : list T := default [] (h !! a).

(** The elements a slice shows: [s[0], ..., s[len(s)-1]]. *)
Definition elems (h : heap) (s : slice) : list T :=
  take (s_len s) (drop (s_off s) (cells h (s_arr s))).

(** [make([]T, 0, c)]: a fresh array of [c] zero values; panics (None) on
    a negative capacity. *)
Definition make (h : heap) (c : Z) : option (heap * slice) :=
  if c <? 0 then None
  else Some (h ++ [replicate (Z.to_nat c) zero],
             Slice (length h) 0 0 (Z.to_nat c)).

(** [s[lo:hi]]: panics (None) unless [0 <= lo <= hi <= cap(s)]. *)
Definition reslice (s : slice) (lo hi : Z) : option slice :=
  if (0 <=? lo) && (lo <=? hi) && (hi <=? Z.of_nat (s_cap s)) then
    Some (Slice (s_arr s) (s_off s + Z.to_nat lo)
                (Z.to_nat hi - Z.to_nat lo) (s_cap s - Z.to_nat lo))
  else None.

(** Overwrite the cells of an array from position [p] on with [xs]. *)
Definition write_at (c : list T) (p : nat) (xs : list T) : list T :=
  take p c ++ xs ++ drop (p + length xs) c.

(** [append(s, xs...)]: in place when the capacity suffices (the cells
    after [len(s)] of the SAME backing array are overwritten), into a
    fresh, larger array otherwise. *)
Definition append (h : heap) (s : slice) (xs : list T) : heap * slice :=
  let need := (s_len s + length xs)%nat in
  if decide (need <= s_cap s)%nat then
    (<[s_arr s := write_at (cells h (s_arr s)) (s_off s + s_len s) xs]> h,
     Slice (s_arr s) (s_off s) need (s_cap s))
  else
    let c := Nat.max need (growslice (s_cap s) need) in
    (h ++ [elems h s ++ xs ++ replicate (c - need) zero],
     Slice (length h) 0 need c).

(** A slice is well formed in a heap when its window lies inside its
    backing array. *)
Definition wf (h : heap) (s : slice) : Prop :=
  (s_arr s < length h)%nat /\
  (s_off s + s_cap s <= length (cells h (s_arr s)))%nat /\
  (s_len s <= s_cap s)%nat.

End Slices.

Arguments slice : clear implicits.
(** The heap: backing arrays by address. *)
Abbreviation heap T := (list (list T)).

End GoSlice.

(* ================================================================== *)
(** * The data model of putter.go *)
(* ================================================================== *)

(** [time.Time] is only ever produced by [time.Now()] and consumed by
    [Format(time.RFC3339)]; an instant is represented by that rendering. *)
Definition Time := string.

Record requestRecord := RequestRecord {
  Timestamp : Time;
  Method : string;
  Uri : string;
  PayloadSize : Z;
  PayloadHash : string;
  Payload : string
}.

(** [requestRecord{}]. *)
Definition zeroRecord : requestRecord :=
  RequestRecord "0001-01-01T00:00:00Z" "" "" 0 "" "".

(* ================================================================== *)
(** * storeCalls: the background consumer of the history channel *)
(* ================================================================== *)

Module History.
Import GoSlice.

Section Consumer.
  Variable growslice : nat -> nat -> nat.

(** What the consumer works on: the heap, the global [recordedCalls] and
    its local [swapBuf]. *)
Record store := Store {
  st_heap : heap requestRecord;
  recordedCalls : slice;
  swapBuf : slice
}.

(** The History Buffer as the inspection path reads it. *)
Definition history (st : store) : list requestRecord :=
  elems (st_heap st) (recordedCalls st).

(** [main] allocates [recordedCalls]; [storeCalls] starts by allocating
    [swapBuf], both with capacity [callCount]. *)
Definition start (callCount : Z) : option store :=
  '(h1, rc) ← make zeroRecord [] callCount;
  '(h2, sb) ← make zeroRecord h1 callCount;
  Some (Store h2 rc sb).

(** One iteration of [for call := range c]. *)
Definition storeCalls_iter (callCount : Z) (st : store)
    (call : requestRecord) : option store :=
  (* swapBuf = append(swapBuf, call) *)
  let '(h1, swapBuf1) := append zeroRecord growslice (st_heap st) (swapBuf st) [call] in
  (* existingCalls := recordedCalls *)
  let existingCalls := recordedCalls st in
  (* if len(existingCalls) >= callCount {
       recordedCalls = append(swapBuf, existingCalls[1:callCount]...) } *)
  '(h2, _) ←
    (if Z.of_nat (s_len existingCalls) >=? callCount then
       tl ← reslice existingCalls 1 callCount;
       Some (append zeroRecord growslice h1 swapBuf1 (elems h1 tl))
     else Some (h1, existingCalls));
  (* recordedCalls = append(swapBuf, existingCalls...) *)
  let '(h3, rc3) :=
    append zeroRecord growslice h2 swapBuf1 (elems h2 existingCalls) in
  (* swapBuf = existingCalls[:0] *)
  sb3 ← reslice existingCalls 0 0;
  Some (Store h3 rc3 sb3).

(** The loop over the records received from the channel, in order. *)
Fixpoint storeCalls_loop (callCount : Z) (st : store)
    (calls : list requestRecord) : option store :=
  match calls with
  | [] => Some st
  | call :: rest =>
      st' ← storeCalls_iter callCount st call;
      storeCalls_loop callCount st' rest
  end.

(** The consumer from process start, draining [calls]. *)
Definition storeCalls (callCount : Z) (calls : list requestRecord)
    : option store :=
  st ← start callCount;
  storeCalls_loop callCount st calls.

End Consumer.

(** What every iteration of the consumer keeps: the two slices live in
    different backing arrays, and [swapBuf] is empty. *)
Record inv (st : store) : Prop := Inv {
  inv_rc : wf (st_heap st) (recordedCalls st);
  inv_sb : wf (st_heap st) (swapBuf st);
  inv_ne : s_arr (recordedCalls st) <> s_arr (swapBuf st);
  inv_empty : s_len (swapBuf st) = 0%nat
}.

End History.

(** A growth policy to run the model with: the runtime's doubling. *)
Definition growslice_double (oldcap need : nat) : nat :=
  if (oldcap + oldcap <? need)%nat then need else (oldcap + oldcap)%nat.

Definition rec_named (name : string) : requestRecord :=
  RequestRecord "2024-01-01T00:00:00Z" "PUT" name 0 "" "".

(* ================================================================== *)
(** * crypto/sha256 and encoding/hex *)
(* ================================================================== *)

Module Sha256.

Definition chunk : nat := 64.

Definition u32 (z : Z) : Z := z mod 2 ^ 32.
Definition add32 (x y : Z) : Z := u32 (x + y).
Definition RotateRight32 (x k : Z) : Z :=
  Z.lor (Z.shiftr x k) (u32 (Z.shiftl x (32 - k))).
Definition not32 (x : Z) : Z := Z.lxor x 0xffffffff.

(** The round constants [_K] are the first 32 bits of the fractional parts
    of the cube roots of the first 64 primes, and the initial state
    [init0 .. init7] those of the square roots of the first 8; the tables
    are computed here from that definition ([K_table_ends] and
    [Sum256_hello] check them against the library's literals). *)
Fixpoint primes_from (fuel n : nat) (k : Z) (found : list Z) : list Z :=
  match fuel, n with
  | _, O => found
  | O, _ => found
  | S fuel', S n' =>
      if forallb (fun p => negb (k mod p =? 0)) found
      then primes_from fuel' n' (k + 1) (found ++ [k])
      else primes_from fuel' n (k + 1) found
  end.

Definition first_primes (n : nat) : list Z := primes_from 400 n 2 [].

(** The integer cube root, one bit at a time. *)
Definition icbrt (n : Z) : Z :=
  fold_left (fun r i => let r' := r + 2 ^ Z.of_nat i in
                        if r' * r' * r' <=? n then r' else r)
            (rev (seq 0 48)) 0.

Definition frac_cbrt32 (p : Z) : Z := icbrt (p * 2 ^ 96) mod 2 ^ 32.
Definition frac_sqrt32 (p : Z) : Z := Z.sqrt (p * 2 ^ 64) mod 2 ^ 32.

Definition _K : list Z :=
  Eval vm_compute in map frac_cbrt32 (first_primes 64).

Definition init : list Z :=
  Eval vm_compute in map frac_sqrt32 (first_primes 8).

Definition byteZ (b : byte) : Z := Z.of_N (Byte.to_N b).
Definition Zbyte (z : Z) : byte :=
  default x00 (Byte.of_N (Z.to_N (z mod 256))).

(** [uint32(p[j])<<24 | uint32(p[j+1])<<16 | uint32(p[j+2])<<8 | uint32(p[j+3])] *)
Definition be32 (p : list byte) (j : nat) : Z :=
  let at_ i := byteZ (nth i p x00) in
  Z.lor (Z.lor (Z.lor (Z.shiftl (at_ j) 24) (Z.shiftl (at_ (j + 1)%nat) 16))
               (Z.shiftl (at_ (j + 2)%nat) 8)) (at_ (j + 3)%nat).

Definition wat (w : list Z) (i : nat) : Z := nth i w 0.

(** [for i := 16; i < 64; i++ { ... w[i] = t1 + w[i-7] + t2 + w[i-16] }] *)
Fixpoint schedule (n : nat) (w : list Z) : list Z :=
  match n with
  | O => w
  | S n' =>
      let i := length w in
      let v1 := wat w (i - 2) in
      let t1 := Z.lxor (Z.lxor (RotateRight32 v1 17) (RotateRight32 v1 19))
                       (Z.shiftr v1 10) in
      let v2 := wat w (i - 15) in
      let t2 := Z.lxor (Z.lxor (RotateRight32 v2 7) (RotateRight32 v2 18))
                       (Z.shiftr v2 3) in
      schedule n'
        (w ++ [add32 (add32 (add32 t1 (wat w (i - 7))) t2) (wat w (i - 16))])
  end.

(** One round of [for i := 0; i < 64; i++]. *)
Definition round (v : list Z) (kw : Z * Z) : list Z :=
  match v with
  | [a; b; c; d; e; f; g; h] =>
      let t1 :=
        add32 (add32 (add32 (add32 h
          (Z.lxor (Z.lxor (RotateRight32 e 6) (RotateRight32 e 11))
                  (RotateRight32 e 25)))
          (Z.lxor (Z.land e f) (Z.land (not32 e) g))) (fst kw)) (snd kw) in
      let t2 :=
        add32 (Z.lxor (Z.lxor (RotateRight32 a 2) (RotateRight32 a 13))
                      (RotateRight32 a 22))
              (Z.lxor (Z.lxor (Z.land a b) (Z.land a c)) (Z.land b c)) in
      [add32 t1 t2; a; b; c; add32 d t1; e; f; g]
  | _ => v
  end.

(** The body of [for len(p) >= chunk] on one 64-byte chunk. *)
Definition compress (h : list Z) (p : list byte) : list Z :=
  let w := schedule 48 (map (fun i => be32 p (4 * i)) (seq 0 16)) in
  let v := fold_left round (combine _K w) h in
  map (fun hv => add32 (fst hv) (snd hv)) (combine h v).

Fixpoint blockLoop (fuel : nat) (h : list Z) (p : list byte) : list Z :=
  match fuel with
  | O => h
  | S fuel' =>
      if decide (chunk <= length p)%nat
      then blockLoop fuel' (compress h (take chunk p)) (drop chunk p)
      else h
  end.

(** [blockGeneric]: every iteration drops [chunk] bytes, so [length p]
    iterations are enough. *)
Definition block (h : list Z) (p : list byte) : list Z :=
  blockLoop (length p) h p.

(** [digest]: [x] holds the [nx] pending bytes [d.x[:d.nx]]. *)
Record digest := Digest {
  d_h : list Z;
  d_x : list byte;
  d_len : Z
}.

(** [New()] / [Reset()]. *)
Definition New : digest := Digest init [] 0.

Definition Write (d : digest) (p : list byte) : digest :=
  (* d.len += uint64(nn) *)
  let len' := (d_len d + Z.of_nat (length p)) mod 2 ^ 64 in
  (* if d.nx > 0 { n := copy(d.x[d.nx:], p); d.nx += n;
       if d.nx == chunk { block(d, d.x[:]); d.nx = 0 }; p = p[n:] } *)
  let '(h1, x1, p1) :=
    if decide (0 < length (d_x d))%nat then
      let n := Nat.min (chunk - length (d_x d)) (length p) in
      let x' := d_x d ++ take n p in
      if decide (length x' = chunk)
      then (block (d_h d) x', [], drop n p)
      else (d_h d, x', drop n p)
    else (d_h d, d_x d, p) in
  (* if len(p) >= chunk { n := len(p) &^ (chunk - 1); block(d, p[:n]); p = p[n:] } *)
  let '(h2, p2) :=
    if decide (chunk <= length p1)%nat then
      let n := (length p1 - length p1 mod chunk)%nat in
      (block h1 (take n p1), drop n p1)
    else (h1, p1) in
  (* if len(p) > 0 { d.nx = copy(d.x[:], p) } *)
  let x2 := if decide (0 < length p2)%nat then p2 else x1 in
  Digest h2 x2 len'.

Definition BEPutUint64 (v : Z) : list byte :=
  map (fun i => Zbyte (Z.shiftr v (8 * Z.of_nat (7 - i)))) (seq 0 8).
Definition BEPutUint32 (v : Z) : list byte :=
  map (fun i => Zbyte (Z.shiftr v (8 * Z.of_nat (3 - i)))) (seq 0 4).

(** The padding of [checkSum]: a 1 bit, 0 bits up to 56 bytes mod 64, and
    the length in bits. *)
Definition padding (len : Z) : list byte :=
  let t := if len mod 64 <? 56 then 56 - len mod 64 else 64 + 56 - len mod 64 in
  x80 :: replicate (Z.to_nat t - 1) x00
  ++ BEPutUint64 (Z.shiftl len 3 mod 2 ^ 64).

(** [checkSum]: pad, and render the state big-endian.  The library then
    panics if bytes are still pending ([d.nx != 0]); that cannot happen for
    a digest whose pending bytes match its length ([checkSum_flushes]), and
    is not modelled. *)
Definition checkSum (d : digest) : list byte :=
  let d' := Write d (padding (d_len d)) in
  concat (map BEPutUint32 (d_h d')).

(** [d.Sum(nil)]: works on a copy of the digest. *)
Definition Sum (d : digest) : list byte := checkSum d.

(** [sha256.Sum256(data)]. *)
Definition Sum256 (data : list byte) : list byte := checkSum (Write New data).

(** The pending bytes of a digest are as many as its length says. *)
Definition consistent (d : digest) : Prop :=
  Z.of_nat (length (d_x d)) = d_len d mod 64.

(** The bytes that follow the last whole chunk of [p]: what [Write] leaves
    pending after hashing the whole chunks. *)
Definition rest (p : list byte) : list byte :=
  drop (chunk * (length p / chunk)) p.

End Sha256.

(** [hex.EncodeToString]. *)
Definition hextable : string := "0123456789abcdef".
Definition hexdigit (n : N) : ascii :=
  match String.get (N.to_nat n) hextable with Some c => c | None => "0"%char end.
Fixpoint EncodeToString (src : list byte) : string :=
  match src with
  | [] => EmptyString
  | v :: rest =>
      String (hexdigit (N.shiftr (Byte.to_N v) 4))
        (String (hexdigit (N.land (Byte.to_N v) 15)) (EncodeToString rest))
  end.


(* ================================================================== *)
(** * strings, strconv, fmt and net/url, as far as the handler uses them *)
(* ================================================================== *)

Definition nl : string := String (ascii_of_nat 10) "".
Definition tab : string := String (ascii_of_nat 9) "".

(** [strings.Contains]. *)
Fixpoint Contains (s substr : string) : bool :=
  if String.prefix substr s then true
  else match s with
       | EmptyString => false
       | String _ s' => Contains s' substr
       end.

(** [strconv.Itoa], also what the verb [%d] prints. *)
Definition Itoa (z : Z) : string := NilZero.string_of_int (Z.to_int z).

(** [*strconv.NumError]: bad syntax, or a value that does not fit an [int]. *)
Inductive NumError := ErrSyntax | ErrRange.

Definition digit_of (c : ascii) : option Z :=
  let n := Z.of_nat (nat_of_ascii c) in
  if (48 <=? n) && (n <=? 57) then Some (n - 48) else None.

(** The loop of [strconv.ParseUint] in base 10: a character that is not a
    digit is a syntax error, a value that leaves 64 bits a range error, each
    reported where it is met. *)
Fixpoint digits (s : string) (acc : Z) : Z + NumError :=
  match s with
  | EmptyString => inl acc
  | String c s' =>
      match digit_of c with
      | None => inr ErrSyntax
      | Some d =>
          let acc' := acc * 10 + d in
          if acc' >? 2 ^ 64 - 1 then inr ErrRange else digits s' acc'
      end
  end.

(** [strconv.Atoi]: an optional sign, then decimal digits only, and the
    value must fit a 64-bit [int]. *)
Definition Atoi (s : string) : Z + NumError :=
  match s with
  | EmptyString => inr ErrSyntax
  | String c s' =>
      let neg := Ascii.eqb c "-" in
      let body := if neg || Ascii.eqb c "+" then s' else s in
      match body with
      | EmptyString => inr ErrSyntax
      | _ =>
          match digits body 0 with
          | inr numErr => inr numErr
          | inl n =>
              let v := if neg then - n else n in
              if (- 2 ^ 63 <=? v) && (v <=? 2 ^ 63 - 1) then inl v
              else inr ErrRange
          end
      end
  end.

(** [url.Values.Get]: the first value of the key, or the empty string. *)
Definition Get (query : gmap string (list string)) (key : string) : string :=
  match query !! key with
  | Some (v :: _) => v
  | _ => ""
  end.

(** Arithmetic of [int] and [int64]: two's complement on 64 bits. *)
Definition wrap64 (z : Z) : Z := (z + 2 ^ 63) mod 2 ^ 64 - 2 ^ 63.
Definition add64 (a b : Z) : Z := wrap64 (a + b).
Definition sub64 (a b : Z) : Z := wrap64 (a - b).
Definition mul64 (a b : Z) : Z := wrap64 (a * b).

(* ================================================================== *)
(** * The request body as an [io.Reader] *)
(* ================================================================== *)

(** The errors a body read ends with: [io.EOF] itself, an error that wraps
    it (which [errors.Is] sees through and [==] does not), or a failure. *)
Inductive ReadErr :=
| EOF
| WrapsEOF (text : string)
| Failure (text : string).

(** [errors.Is(err, io.EOF)]. *)
Definition Is_EOF (e : ReadErr) : bool :=
  match e with
  | EOF | WrapsEOF _ => true
  | Failure _ => false
  end.

(** [err.Error()]. *)
Definition Error (e : ReadErr) : string :=
  match e with
  | EOF => "EOF"
  | WrapsEOF text | Failure text => text
  end.

(** A body still to be read: the segments in which its bytes become
    available, the error that ends it, and whether that error comes with
    the last bytes ([n > 0] with [err != nil]) or in a read of its own. *)
Record Body := MkBody {
  segments : list (list byte);
  final : ReadErr;
  eager : bool
}.

Definition content (b : Body) : list byte := concat (segments b).

(** [Read(p)] with [len(p) = n]: at most [n] bytes of the next segment. *)
Definition Read (b : Body) (n : nat) : (list byte * option ReadErr) * Body :=
  match segments b with
  | [] => (([], Some (final b)), b)
  | seg :: more =>
      if decide (length seg <= n)%nat then
        match more with
        | [] =>
            if eager b
            then ((seg, Some (final b)), MkBody [] (final b) (eager b))
            else ((seg, None), MkBody [] (final b) (eager b))
        | _ => ((seg, None), MkBody more (final b) (eager b))
        end
      else ((take n seg, None), MkBody (drop n seg :: more) (final b) (eager b))
  end.

(** Enough iterations for any loop that reads the body to its end with a
    buffer that is not empty: every read uses up a byte or a segment. *)
Definition body_fuel (b : Body) : nat :=
  S (length (content b) + length (segments b)).

(** The measure that every successful read lowers. *)
Definition mu (b : Body) : nat :=
  (length (content b) + length (segments b))%nat.

(** The [io.Reader] contract as request bodies keep it: no read returns
    zero bytes together with a nil error. *)
Definition no_empty_read (b : Body) : Prop :=
  Forall (fun seg => seg <> []) (segments b).

(* ================================================================== *)
(** * recordRequest: the handler *)
(* ================================================================== *)

Module Handler.

(** The package-level variables the handler reads and writes. *)
Record Globals := MkGlobals {
  goroutinelimit : Z;
  delay : Z;
  variance : Z;
  chance : Z;
  bufferRequest : bool;
  storePayload : bool;
  recordedCalls : list requestRecord
}.

(** What a run of the handler leaves behind: the response (status line and
    body), [os.Stderr], the records sent on [callChan] and the calls of
    [time.Sleep], each in order. *)
Record Output := MkOutput {
  status : option Z;
  wrote : string;
  stderr : string;
  sent : list requestRecord;
  slept : list Z
}.

Definition no_output : Output := MkOutput None "" "" [] [].

(** The status the client gets: 200 unless [WriteHeader] said otherwise. *)
Definition statusCode (o : Output) : Z := default 200 (status o).

Record State := MkState {
  globals : Globals;
  output : Output;
  body : Body;          (* what is left of [req.Body] *)
  draws : nat           (* numbers drawn from [random] so far *)
}.

(** What the handler observes but does not control. *)
Record Env := MkEnv {
  NumGoroutine : Z;     (* [runtime.NumGoroutine()] *)
  Now : Time;           (* [time.Now()] *)
  random : nat -> Z     (* the raw stream behind [random] *)
}.

Record Request := MkRequest {
  req_Method : string;
  URL_Path : string;
  URL_RequestURI : string;
  URL_Query : gmap string (list string);
  req_Body : Body
}.

(** How a run ends: normally, in a panic, or (in the model only) with a
    loop out of iterations. *)
Inductive res (A : Type) :=
| Ok (a : A)
| Panic
| OutOfFuel.
Arguments Ok {A} a.
Arguments Panic {A}.
Arguments OutOfFuel {A}.

Definition M (A : Type) : Type := State -> res (A * State).

#[global] Instance M_ret : MRet M := fun A a s => Ok (a, s).
#[global] Instance M_bind : MBind M := fun A B f m s =>
  match m s with
  | Ok (a, s') => f a s'
  | Panic => Panic
  | OutOfFuel => OutOfFuel
  end.

Definition get : M State := fun s => Ok (s, s).
Definition getGlobals : M Globals := fun s => Ok (globals s, s).
Definition setGlobals (g : Globals) : M unit := fun s =>
  Ok (tt, MkState g (output s) (body s) (draws s)).
Definition modifyOutput (f : Output -> Output) : M unit := fun s =>
  Ok (tt, MkState (globals s) (f (output s)) (body s) (draws s)).

(** [resp.WriteHeader(code)]: the first status written stands. *)
Definition WriteHeader (code : Z) : M unit :=
  modifyOutput (fun o =>
    MkOutput (Some (default code (status o))) (wrote o) (stderr o)
             (sent o) (slept o)).

(** [resp.Write]: sends the header with status 200 if none was written. *)
Definition respWrite (text : string) : M unit :=
  modifyOutput (fun o =>
    MkOutput (Some (statusCode o)) (wrote o +:+ text) (stderr o)
             (sent o) (slept o)).

(** [fmt.Fprintln(resp, ...)], applied to the line it prints. *)
Definition Fprintln_resp (line : string) : M unit := respWrite (line +:+ nl).

(** [fmt.Fprintln(os.Stderr, ...)]. *)
Definition Fprintln_stderr (line : string) : M unit :=
  modifyOutput (fun o =>
    MkOutput (status o) (wrote o) (stderr o +:+ line +:+ nl)
             (sent o) (slept o)).

(** [callChan <- r]; that the send waits while the channel is full is not
    modelled. *)
Definition send (r : requestRecord) : M unit :=
  modifyOutput (fun o =>
    MkOutput (status o) (wrote o) (stderr o) (sent o ++ [r]) (slept o)).

(** [time.Sleep(d)]. *)
Definition Sleep (d : Z) : M unit :=
  modifyOutput (fun o =>
    MkOutput (status o) (wrote o) (stderr o) (sent o) (slept o ++ [d])).

(** [random.Intn(n)]: uniform in [[0, n)]; panics unless [n > 0]. *)
Definition Intn (env : Env) (n : Z) : M Z := fun s =>
  if n <=? 0 then Panic
  else Ok (random env (draws s) mod n,
           MkState (globals s) (output s) (body s) (S (draws s))).

(** [req.Body.Read(buf)] with [len(buf) = n]. *)
Definition bodyRead (n : nat) : M (list byte * option ReadErr) := fun s =>
  let '(r, b') := Read (body s) n in
  Ok (r, MkState (globals s) (output s) b' (draws s)).

(** [func (r requestRecord) String() string]. *)
Definition String_ (r : requestRecord) : string :=
  Timestamp r +:+ " " +:+ Method r +:+ " " +:+ Uri r +:+ " "
  +:+ Itoa (PayloadSize r) +:+ " " +:+ PayloadHash r +:+ nl +:+ tab
  +:+ Payload r +:+ nl +:+ "--" +:+ nl.

(** [func setFromQueryParam(param string, val *int) error]: the new
    content of [*val] and the error returned. *)
Definition setFromQueryParam (param : string) (val : Z) : Z * option NumError :=
  if negb (String.eqb "" param) then
    match Atoi param with
    | inr numErr => (val, Some numErr)
    | inl num => (num, None)
    end
  else (val, None).

Definition bufSize : nat := Z.to_nat 0x8000.
Definition MinRead : nat := 512.

Section Handler.
  (** The capacity [bytes.Buffer] grows to when it lacks [MinRead] bytes of
      room, from its capacity and length; the model takes at least
      [length + MinRead]. *)
  Variable buffer_grow : nat -> nat -> nat.

  Variable env : Env.

(** [bytes.Buffer.ReadFrom]: read into the free room of the buffer until an
    error; [io.EOF] itself is not reported. *)
Fixpoint ReadFrom (fuel : nat) (buf : list byte) (cap : nat) (n : Z)
    : M (Z * option ReadErr * list byte) :=
  match fuel with
  | O => fun _ => OutOfFuel
  | S fuel' =>
      (* i := b.grow(MinRead) *)
      let cap' :=
        if decide (length buf + MinRead <= cap)%nat then cap
        else Nat.max (length buf + MinRead) (buffer_grow cap (length buf)) in
      (* m, e := r.Read(b.buf[i:cap(b.buf)]) *)
      '(data, e) ← bodyRead (cap' - length buf);
      let buf' := buf ++ data in
      let n' := add64 n (Z.of_nat (length data)) in
      match e with
      | Some EOF => mret (n', None, buf')
      | Some e => mret (n', Some e, buf')
      | None => ReadFrom fuel' buf' cap' n'
      end
  end.

(** [for justRead > 0 && readErr == nil { ... }] of the streaming branch. *)
Fixpoint streamLoop (fuel : nat) (justRead : list byte)
    (readErr : option ReadErr) (bytesRead : Z) (hasher : Sha256.digest)
    : M (Z * option ReadErr * Sha256.digest) :=
  if (0 <? Z.of_nat (length justRead)) && bool_decide (readErr = None) then
    match fuel with
    | O => fun _ => OutOfFuel
    | S fuel' =>
        '(justRead', readErr') ← bodyRead bufSize;
        streamLoop fuel' justRead' readErr'
          (add64 bytesRead (Z.of_nat (length justRead')))
          (Sha256.Write hasher justRead')
    end
  else mret (bytesRead, readErr, hasher).

(** The branch [if bufferRequest || storePayload]:
    [(bytesRead, rawHash, payload)]. *)
Definition digestBuffered : M (Z * list byte * list byte) :=
  s ← get;
  '(bytesRead, readErr, buf) ← ReadFrom (body_fuel (body s)) [] 0 0;
  match readErr with
  | Some e =>
      WriteHeader 500;;
      Fprintln_resp (Error e);;
      Fprintln_stderr (Error e)
  | None => mret tt
  end;;
  let payload := buf in
  mret (bytesRead, Sha256.Sum256 payload, payload).

(** The streaming branch: [rawHash] and [payload] stay nil on an error
    that is not the end of the body. *)
Definition digestStreaming : M (Z * list byte * list byte) :=
  s ← get;
  '(justRead, readErr) ← bodyRead bufSize;
  let bytesRead := add64 0 (Z.of_nat (length justRead)) in
  let hasher := Sha256.Write Sha256.New justRead in
  '(bytesRead, readErr, hasher) ←
    streamLoop (body_fuel (body s)) justRead readErr bytesRead hasher;
  match readErr with
  | Some e =>
      if negb (Is_EOF e) then
        WriteHeader 500;;
        Fprintln_resp (Error e);;
        Fprintln_stderr (Error e);;
        mret (bytesRead, [], [])
      else mret (bytesRead, Sha256.Sum hasher, [])
  | None => mret (bytesRead, Sha256.Sum hasher, [])
  end.

(** The chaos stall that ends the generic capture path. *)
Definition chaos : M unit :=
  g ← getGlobals;
  if chance g >? 0 then
    draw ← Intn env 100;
    if chance g >=? draw then
      shift ← (if variance g >? 0 then
                 v ← Intn env (variance g);
                 mret (sub64 v (Z.quot (variance g) 2))
               else mret 0);
      Sleep (mul64 1000000 (add64 (delay g) shift))
    else mret tt
  else mret tt.

(** Admission rejection. *)
Definition reject : M unit :=
  g ← getGlobals;
  WriteHeader 503;;
  Fprintln_resp ("Hit the Go Routine limit of: " +:+ Itoa (goroutinelimit g)).

Definition favicon : M unit :=
  WriteHeader 404;;
  Fprintln_resp "No icon for you!".

(** [for _, call := range recordedCalls { fmt.Fprintln(resp, call) }] *)
Fixpoint printCalls (calls : list requestRecord) : M unit :=
  match calls with
  | [] => mret tt
  | call :: rest => Fprintln_resp (String_ call);; printCalls rest
  end.

Definition inspect : M unit :=
  g ← getGlobals;
  printCalls (recordedCalls g).

(** The configuration path; the errors of [setFromQueryParam] are dropped. *)
Definition configure (req : Request) : M unit :=
  let query := URL_Query req in
  g ← getGlobals;
  let '(delay', _) := setFromQueryParam (Get query "delay") (delay g) in
  let '(variance', _) := setFromQueryParam (Get query "variance") (variance g) in
  let '(chance', _) := setFromQueryParam (Get query "chance") (chance g) in
  let '(limit', _) := setFromQueryParam (Get query "limit") (goroutinelimit g) in
  setGlobals (MkGlobals limit' delay' variance' chance'
                        (bufferRequest g) (storePayload g) (recordedCalls g));;
  respWrite ("delay: " +:+ Itoa delay' +:+ "ms" +:+ nl
             +:+ "variance: " +:+ Itoa variance' +:+ "ms" +:+ nl
             +:+ "chance: " +:+ Itoa chance' +:+ "%" +:+ nl
             +:+ "Go routine 'limit': " +:+ Itoa limit' +:+ nl).

(** [if bufferRequest || storePayload { ... } else { ... }]:
    [(bytesRead, rawHash, payload)]. *)
Definition consumeBody (g : Globals) : M (Z * list byte * list byte) :=
  if bufferRequest g || storePayload g then digestBuffered
  else digestStreaming.

(** The generic capture path. *)
Definition capture (req : Request) : M unit :=
  g ← getGlobals;
  '(bytesRead, rawHash, payload) ← consumeBody g;
  let hexHash := EncodeToString rawHash in
  send (RequestRecord (Now env) (req_Method req) (URL_RequestURI req)
                      bytesRead hexHash (string_of_list_byte payload));;
  Fprintln_resp (URL_Path req +:+ " received");;
  chaos.

Definition recordRequest (req : Request) : M unit :=
  g ← getGlobals;
  if (goroutinelimit g >? 0) && (NumGoroutine env >? goroutinelimit g) then
    reject
  else if String.eqb (URL_Path req) "/favicon.ico" then favicon
  else if Contains (URL_Path req) "recordedRequests" then inspect
  else if Contains (URL_Path req) "configDelay" then configure req
  else capture req.

(** The routes that follow the favicon probe. *)
Definition laterRoutes (req : Request) : M unit :=
  if Contains (URL_Path req) "recordedRequests" then inspect
  else if Contains (URL_Path req) "configDelay" then configure req
  else capture req.

(** The admission guard's test. *)
Definition overLimit (g : Globals) : bool :=
  (goroutinelimit g >? 0) && (NumGoroutine env >? goroutinelimit g).

(** The request reaches the generic capture path. *)
Definition captured (g : Globals) (req : Request) : bool :=
  negb (overLimit g)
  && negb (String.eqb (URL_Path req) "/favicon.ico")
  && negb (Contains (URL_Path req) "recordedRequests")
  && negb (Contains (URL_Path req) "configDelay").

(** The request reaches the configuration path. *)
Definition configured (g : Globals) (req : Request) : bool :=
  negb (overLimit g)
  && negb (String.eqb (URL_Path req) "/favicon.ico")
  && negb (Contains (URL_Path req) "recordedRequests")
  && Contains (URL_Path req) "configDelay".

(** A request served from the given package state. *)
Definition serve (g : Globals) (req : Request) : res (unit * State) :=
  recordRequest req (MkState g no_output (req_Body req) 0).

End Handler.

(** What [ReadFrom] reports for a body: [io.EOF] is the normal end. *)
Definition reported (b : Body) : option ReadErr :=
  match final b with
  | EOF => None
  | e => Some e
  end.

(** The body once it has been read to its final error. *)
Definition drained (b : Body) : Body := MkBody [] (final b) (eager b).

(** The output after the three statements that report a failed read. *)
Definition failed (e : ReadErr) (o : Output) : Output :=
  MkOutput (Some (default 500 (status o))) (wrote o +:+ (Error e +:+ nl))
           (stderr o +:+ Error e +:+ nl) (sent o) (slept o).

(** Runs the monadic plumbing of the handler on a given state. *)
Ltac run := unfold mbind, mret, M_bind, M_ret, get, getGlobals, setGlobals,
  modifyOutput, bodyRead; cbn [globals output body draws].

End Handler.

(** Only the digits of [hextable] occur. *)
Definition is_lower_hex (s : string) : bool :=
  forallb (fun c => existsb (Ascii.eqb c) (list_ascii_of_string hextable))
          (list_ascii_of_string s).

(** What a query parameter does to the field it names: a value that parses
    replaces the field; otherwise the field stays, and [setFromQueryParam]
    hands the parse error to its caller unless the parameter is empty. *)
Definition param_applied (param : string) (old new : Z) : Prop :=
  match Atoi param with
  | inl n => new = n
  | inr e =>
      new = old /\
      (param <> "" -> (Handler.setFromQueryParam param old).2 = Some e)
  end.

(* ================================================================== *)
(** * Sample inputs *)
(* ================================================================== *)

Module Samples.
Import Handler.
Definition buffer_double (cap len : nat) : nat := (cap + cap + MinRead)%nat.
Definition env0 : Env := MkEnv 1 "2024-01-01T00:00:00Z" (fun k => Z.of_nat k).
Definition streaming : Globals := MkGlobals 0 0 0 0 false false [].
Definition buffering : Globals := MkGlobals 0 0 0 0 true false [].
Definition post (path : string) (b : Body) : Request :=
  MkRequest "POST" path path ∅ b.
Definition hello : Body :=
  MkBody [list_byte_of_string "hel"; list_byte_of_string "lo"] EOF true.
Definition broken : Body :=
  MkBody [list_byte_of_string "hel"] (Failure "connection reset") false.
Definition config (query : gmap string (list string)) : Request :=
  MkRequest "GET" "/configDelay" "/configDelay" query (MkBody [] EOF false).
Definition mixed_config : Request :=
  config {[ "delay" := ["abc"]; "chance" := ["7"] ]}.
End Samples.


(* ================================================================== *)
(** * Vocabulary of the further properties *)
(* ================================================================== *)

(** The values an [int] holds on the 64-bit platforms. *)
Definition is_int (z : Z) : Prop := - 2 ^ 63 <= z <= 2 ^ 63 - 1.

(** What [storeCalls] keeps while the buffer is within its capacity: no
    array besides the two made at start, both slices with the full
    capacity, [swapBuf] empty, and at most [k] records held. *)
Definition reusing (callCount : Z) (k : nat) (st : History.store) : Prop :=
  length (History.st_heap st) = 2%nat /\
  GoSlice.s_cap (History.recordedCalls st) = Z.to_nat callCount /\
  GoSlice.s_cap (History.swapBuf st) = Z.to_nat callCount /\
  GoSlice.s_len (History.swapBuf st) = 0%nat /\
  (GoSlice.s_len (History.recordedCalls st) <= k)%nat.

(** The text the inspection path writes for a list of records: each one
    rendered by [String()] and ended by the newline of [Fprintln]. *)
Definition listing (calls : list requestRecord) : string :=
  fold_right (fun call out => (Handler.String_ call +:+ nl) +:+ out) "" calls.

(** The four numbers of the chaos policy and the admission limit are
    [int]s. *)
Definition ints (g : Handler.Globals) : Prop :=
  is_int (Handler.goroutinelimit g) /\ is_int (Handler.delay g) /\
  is_int (Handler.variance g) /\ is_int (Handler.chance g).

(** [chaos] as a function of the policy and of the random stream from draw
    [d] on: the calls of [time.Sleep] and the draws used afterwards
    ([chaos_exact] proves that [chaos] computes this). *)
Definition stall (env : Handler.Env) (g : Handler.Globals) (d : nat)
    : list Z * nat :=
  if Handler.chance g >? 0 then
    if Handler.chance g >=? Handler.random env d mod 100 then
      if Handler.variance g >? 0 then
        ([mul64 1000000
            (add64 (Handler.delay g)
               (sub64 (Handler.random env (S d) mod Handler.variance g)
                      (Z.quot (Handler.variance g) 2)))], S (S d))
      else ([mul64 1000000 (add64 (Handler.delay g) 0)], S d)
    else ([], S d)
  else ([], d).

(** What a route that does not capture leaves behind: the body unread, no
    number drawn, nothing sent, slept or logged. *)
Definition quiet (req : Handler.Request) (s : Handler.State) : Prop :=
  Handler.body s = Handler.req_Body req /\ Handler.draws s = 0%nat /\
  Handler.sent (Handler.output s) = [] /\
  Handler.slept (Handler.output s) = [] /\
  Handler.stderr (Handler.output s) = "".

(** The package state once [storeCalls] has published its buffer in
    [recordedCalls]. *)
Definition with_history (g : Handler.Globals) (calls : list requestRecord)
    : Handler.Globals :=
  Handler.MkGlobals (Handler.goroutinelimit g) (Handler.delay g)
    (Handler.variance g) (Handler.chance g) (Handler.bufferRequest g)
    (Handler.storePayload g) calls.

Module MoreSamples.
Import Handler Samples.
Definition held : Globals :=
  MkGlobals 0 0 0 0 false false [rec_named "B"; rec_named "A"].
Definition often : Globals := MkGlobals 0 50 20 99 false false [].
Definition crowded : Env := MkEnv 5 "2024-01-01T00:00:00Z" Z.of_nat.
Definition both_keywords : Request :=
  MkRequest "GET" "/configDelay/recordedRequests"
            "/configDelay/recordedRequests?delay=5" {[ "delay" := ["5"] ]} hello.
Definition hello_whole : Body := MkBody [list_byte_of_string "hello"] EOF false.
Definition hello_stutter : Body :=
  MkBody [list_byte_of_string "hel"; []; list_byte_of_string "lo"] EOF false.
End MoreSamples.

(* ================================================================== *)
(** * Proofs: slices *)
(* ================================================================== *)

Module GoSliceFacts.
Import GoSlice.

Section Facts.
  Context {T : Type}.
  Variable zero : T.
  Variable growslice : nat -> nat -> nat.

  Implicit Types (h : heap T) (s t : slice) (xs : list T).

Lemma cells_app_old h k a : (a < length h)%nat -> cells (h ++ k) a = cells h a.
Proof. intros Ha. unfold cells. rewrite lookup_app_l; auto. Qed.

Lemma cells_app_new h c : cells (h ++ [c]) (length h) = c.
Proof.
  unfold cells. rewrite lookup_app_r by lia.
  rewrite Nat.sub_diag. reflexivity.
Qed.

Lemma cells_insert_eq h a c : (a < length h)%nat -> cells (<[a := c]> h) a = c.
Proof. intros Ha. unfold cells. rewrite list_lookup_insert_eq; auto. Qed.

Lemma cells_insert_ne h a b c : a <> b -> cells (<[a := c]> h) b = cells h b.
Proof. intros Hab. unfold cells. rewrite list_lookup_insert_ne; auto. Qed.

Lemma length_write_at (c : list T) p xs :
  (p + length xs <= length c)%nat -> length (write_at c p xs) = length c.
Proof.
  intros Hp. unfold write_at.
  rewrite !length_app, length_take, length_drop. lia.
Qed.

(** Writing behind a window leaves the window as it was. *)
Lemma window_write_at (c : list T) off n p xs :
  (off + n <= p)%nat -> (p <= length c)%nat ->
  take n (drop off (write_at c p xs)) = take n (drop off c).
Proof.
  intros Hn Hp. unfold write_at.
  rewrite drop_app_le by (rewrite length_take; lia).
  rewrite take_app_le by (rewrite length_drop, length_take; lia).
  replace p with (off + (p - off))%nat at 1 by lia.
  rewrite <- take_drop_commute, take_take.
  f_equal. lia.
Qed.

(** The window that ends where the write starts grows by what is written. *)
Lemma window_write_at_end (c : list T) off n xs :
  (off + n + length xs <= length c)%nat ->
  take (n + length xs) (drop off (write_at c (off + n) xs))
  = take n (drop off c) ++ xs.
Proof.
  intros Hlen. unfold write_at.
  rewrite drop_app_le by (rewrite length_take; lia).
  rewrite <- take_drop_commute.
  rewrite take_app_add' by (rewrite length_take, length_drop; lia).
  f_equal. rewrite take_app_length. reflexivity.
Qed.

(** [append] shows the old elements followed by the new ones. *)
Lemma append_elems h s xs h' s' :
  wf h s -> append zero growslice h s xs = (h', s') ->
  elems h' s' = elems h s ++ xs /\ wf h' s'.
Proof.
  intros (Ha & Hc & Hl). unfold append.
  destruct (decide _) as [Hfit|Hgrow]; intros [= <- <-].
  - unfold elems, wf. simpl. rewrite cells_insert_eq by assumption.
    split.
    + apply window_write_at_end. lia.
    + rewrite length_insert, length_write_at by lia. lia.
  - unfold elems at 1, wf. simpl. rewrite cells_app_new, drop_0.
    split.
    + assert (Hlen : length (elems h s) = s_len s).
      { unfold elems. rewrite length_take, length_drop. lia. }
      rewrite app_assoc.
      rewrite take_app_length'; [reflexivity|].
      rewrite length_app. lia.
    + rewrite !length_app, length_replicate. simpl.
      unfold elems. rewrite length_take, length_drop. lia.
Qed.

(** [append] returns a slice in the same array or in a fresh one. *)
Lemma append_arr h s xs h' s' :
  append zero growslice h s xs = (h', s') ->
  s_arr s' = s_arr s \/ s_arr s' = length h.
Proof.
  unfold append. destruct (decide _); intros [= <- <-]; simpl; auto.
Qed.

(** Frame: a slice over another array is not touched by [append]. *)
Lemma append_frame h s xs h' s' t :
  append zero growslice h s xs = (h', s') ->
  wf h t -> s_arr t <> s_arr s ->
  elems h' t = elems h t /\ wf h' t.
Proof.
  intros Happ (Ha & Hc & Hl) Hne. revert Happ. unfold append.
  destruct (decide _); intros [= <- <-]; unfold elems, wf.
  - rewrite cells_insert_ne, length_insert by congruence. auto.
  - rewrite cells_app_old, length_app by assumption. simpl.
    split; [reflexivity|]. lia.
Qed.

(** The slice appended to still shows its own elements afterwards. *)
Lemma append_self h s xs h' s' :
  append zero growslice h s xs = (h', s') ->
  wf h s -> elems h' s = elems h s /\ wf h' s.
Proof.
  intros Happ (Ha & Hc & Hl). revert Happ.
  unfold append. destruct (decide _); intros [= <- <-]; unfold elems, wf.
  - rewrite cells_insert_eq, length_insert by assumption.
    rewrite length_write_at by lia.
    split; [|lia]. apply window_write_at; lia.
  - rewrite cells_app_old, length_app by assumption. simpl.
    split; [reflexivity|]. lia.
Qed.

End Facts.
End GoSliceFacts.

(* ================================================================== *)
(** * Proofs: the history buffer *)
(* ================================================================== *)

Module HistoryFacts.
Import GoSlice GoSliceFacts History.

Section Facts.
  Variable growslice : nat -> nat -> nat.

Lemma start_inv callCount :
  0 <= callCount ->
  exists st, start callCount = Some st /\ inv st /\ history st = [].
Proof.
  intros HC. unfold start, make.
  destruct (Z.ltb_spec callCount 0) as [?|_]; [lia|]. simpl.
  eexists. split; [reflexivity|]. split.
  - constructor; unfold wf, cells; simpl; try lia.
    all: rewrite length_replicate; lia.
  - reflexivity.
Qed.

Lemma reslice_empty (s : slice) :
  reslice s 0 0 = Some (Slice (s_arr s) (s_off s + 0) 0 (s_cap s - 0)).
Proof.
  unfold reslice.
  destruct (Z.leb_spec 0 (Z.of_nat (s_cap s))); [reflexivity|lia].
Qed.

(** One iteration puts the new record in front of ALL the records held
    before it: the slice built under the capacity test is overwritten by
    the unconditional [append] that follows it. *)
Lemma storeCalls_iter_cons callCount st call :
  1 <= callCount -> inv st ->
  exists st', storeCalls_iter growslice callCount st call = Some st' /\
              inv st' /\ history st' = call :: history st.
Proof.
  intros HC [Hrc Hsb Hne Hemp]. unfold storeCalls_iter, history.
  destruct st as [h rc sb]; simpl in *.
  destruct (append zeroRecord growslice h sb [call]) as [h1 sb1] eqn:E1.
  destruct (append_elems _ _ _ _ _ _ _ Hsb E1) as [Hel1 Hsb1].
  destruct (append_frame _ _ _ _ _ _ _ rc E1 Hrc Hne) as [Hrc1e Hrc1].
  assert (Hne1 : s_arr rc <> s_arr sb1).
  { destruct (append_arr _ _ _ _ _ _ _ E1) as [->| ->]; [assumption|].
    destruct Hrc; lia. }
  assert (Hone : elems h1 sb1 = [call]).
  { rewrite Hel1. unfold elems. rewrite Hemp. reflexivity. }
  (* the slice built under the capacity test *)
  assert (Hmid : exists h2 r2,
    (if Z.of_nat (s_len rc) >=? callCount
     then tl ← reslice rc 1 callCount;
          Some (append zeroRecord growslice h1 sb1 (elems h1 tl))
     else Some (h1, rc)) = Some (h2, r2) /\
    elems h2 sb1 = [call] /\ wf h2 sb1 /\
    elems h2 rc = elems h rc /\ wf h2 rc).
  { destruct (Z.of_nat (s_len rc) >=? callCount) eqn:Hfull.
    - assert (Hre : exists tl, reslice rc 1 callCount = Some tl).
      { unfold reslice. destruct Hrc as (_ & _ & Hl).
        destruct (Z.leb_spec 1 callCount); [|lia].
        destruct (Z.leb_spec callCount (Z.of_nat (s_cap rc))); [|lia].
        simpl. eauto. }
      destruct Hre as [tl ->]. simpl.
      destruct (append zeroRecord growslice h1 sb1 (elems h1 tl))
        as [h2 r2] eqn:E2.
      exists h2, r2. split; [reflexivity|].
      destruct (append_self _ _ _ _ _ _ _ E2 Hsb1) as [-> ?].
      destruct (append_frame _ _ _ _ _ _ _ rc E2 Hrc1 Hne1) as [-> ?].
      auto.
    - exists h1, rc. auto. }
  destruct Hmid as (h2 & r2 & -> & Hone2 & Hsb2 & Hrc2e & Hrc2). simpl.
  destruct (append zeroRecord growslice h2 sb1 (elems h2 rc))
    as [h3 rc3] eqn:E3.
  destruct (append_elems _ _ _ _ _ _ _ Hsb2 E3) as [Hel3 Hrc3].
  destruct (append_frame _ _ _ _ _ _ _ rc E3 Hrc2 Hne1) as [_ Hrc3'].
  rewrite reslice_empty. simpl.
  eexists. split; [reflexivity|]. simpl. split.
  - constructor; simpl; auto.
    + destruct Hrc3' as (? & ? & ?). unfold wf. simpl. lia.
    + destruct (append_arr _ _ _ _ _ _ _ E3) as [->| ->]; [congruence|].
      destruct Hrc2; lia.
  - rewrite Hel3, Hone2, Hrc2e. reflexivity.
Qed.

Lemma storeCalls_loop_rev callCount calls : forall st,
  1 <= callCount -> inv st ->
  exists st', storeCalls_loop growslice callCount st calls = Some st' /\
              inv st' /\ history st' = rev calls ++ history st.
Proof.
  induction calls as [|call rest IH]; intros st HC Hinv; simpl.
  - eauto.
  - destruct (storeCalls_iter_cons callCount st call HC Hinv)
      as (st1 & -> & Hinv1 & Hh1). simpl.
    destruct (IH st1 HC Hinv1) as (st2 & -> & Hinv2 & Hh2).
    exists st2. split; [reflexivity|]. split; [assumption|].
    rewrite Hh2, Hh1, <- app_assoc. reflexivity.
Qed.

(** For a capacity of at least one the consumer never panics, and the
    buffer it leaves holds every record drained, newest first. *)
Lemma storeCalls_rev callCount calls :
  1 <= callCount ->
  exists st, storeCalls growslice callCount calls = Some st /\
             history st = rev calls.
Proof.
  intros HC. unfold storeCalls.
  destruct (start_inv callCount) as (st0 & -> & Hinv0 & Hh0); [lia|].
  simpl.
  destruct (storeCalls_loop_rev callCount calls st0 HC Hinv0)
    as (st & -> & _ & Hh).
  exists st. split; [reflexivity|].
  rewrite Hh, Hh0, app_nil_r. reflexivity.
Qed.

End Facts.
End HistoryFacts.

(* ================================================================== *)
(** * Proofs: hashing in pieces *)
(* ================================================================== *)

Module Sha256Facts.
Import Sha256.

(** The computed tables start and end as the library's literals do. *)
Example K_table_ends :
  length _K = 64%nat /\ nth 0 _K 0 = 0x428a2f98 /\ nth 63 _K 0 = 0xc67178f2 /\
  nth 0 init 0 = 0x6a09e667 /\ nth 7 init 0 = 0x5be0cd19.
Proof. repeat split; reflexivity. Qed.

(** The digest of the five bytes of [hello], in one piece and in two. *)
Example Sum256_hello :
  EncodeToString (Sum256 (list_byte_of_string "hello"))
  = "2cf24dba5fb0a30e26e83b2ac5b9e29e1b161e5c1fa7425e73043362938b9824" /\
  EncodeToString
    (Sum (Write (Write New (list_byte_of_string "he"))
                (list_byte_of_string "llo")))
  = "2cf24dba5fb0a30e26e83b2ac5b9e29e1b161e5c1fa7425e73043362938b9824".
Proof. split; vm_compute; reflexivity. Qed.

Lemma blockLoop_enough fuel : forall h p,
  (length p <= fuel)%nat -> blockLoop fuel h p = block h p.
Proof.
  unfold block.
  induction fuel as [fuel IH] using lt_wf_ind. intros h p Hp.
  destruct fuel as [|fuel].
  - destruct p; [reflexivity | simpl in Hp; lia].
  - destruct (length p) as [|n] eqn:Hn.
    + simpl. destruct (decide (chunk <= length p)%nat) as [Hc|]; [|reflexivity].
      unfold chunk in Hc. lia.
    + simpl. rewrite Hn.
      destruct (decide (chunk <= S n)%nat) as [Hc|]; [|reflexivity].
      unfold chunk in *.
      rewrite (IH fuel) by (try rewrite length_drop; lia).
      rewrite (IH n) by (try rewrite length_drop; lia).
      reflexivity.
Qed.

Lemma block_lt h p : (length p < chunk)%nat -> block h p = h.
Proof.
  intros Hp. unfold block. destruct (length p) eqn:Hn; [reflexivity|].
  simpl. rewrite Hn. destruct (decide _); [lia | reflexivity].
Qed.

Lemma block_step h p :
  (chunk <= length p)%nat ->
  block h p = block (compress h (take chunk p)) (drop chunk p).
Proof.
  intros Hp. unfold block at 1. destruct (length p) eqn:Hn.
  - unfold chunk in Hp. lia.
  - simpl. rewrite Hn. destruct (decide _); [|lia].
    apply blockLoop_enough. rewrite length_drop. unfold chunk. lia.
Qed.

(** Whole chunks in front can be hashed first. *)
Lemma block_app k : forall h a b,
  length a = (chunk * k)%nat -> block h (a ++ b) = block (block h a) b.
Proof.
  induction k as [|k IH]; intros h a b Ha.
  - destruct a; [|simpl in Ha; lia]. simpl. rewrite (block_lt h []); [reflexivity|].
    unfold chunk. simpl. lia.
  - unfold chunk in Ha.
    rewrite (block_step h (a ++ b)) by (rewrite length_app; unfold chunk; lia).
    rewrite (block_step h a) by (unfold chunk; lia).
    rewrite take_app_le, drop_app_le by (unfold chunk; lia).
    apply IH. rewrite length_drop. unfold chunk. lia.
Qed.

(** The bytes after the last whole chunk are not hashed. *)
Lemma block_take_full h p :
  block h (take (chunk * (length p / chunk)) p) = block h p.
Proof.
  assert (Hdm := Nat.div_mod_eq (length p) chunk).
  assert (Hlt : (length p mod chunk < chunk)%nat)
    by (apply Nat.mod_upper_bound; discriminate).
  set (n := (chunk * (length p / chunk))%nat) in *.
  assert (E : block h (take n p ++ drop n p) = block h (take n p)).
  { rewrite (block_app (length p / chunk)) by (rewrite length_take; lia).
    apply block_lt. rewrite length_drop. lia. }
  rewrite take_drop in E. symmetry. exact E.
Qed.

Lemma length_rest p : length (rest p) = (length p mod chunk)%nat.
Proof.
  unfold rest. rewrite length_drop.
  assert (Hdm := Nat.div_mod_eq (length p) chunk). lia.
Qed.

Lemma rest_lt p : (length p < chunk)%nat -> rest p = p.
Proof.
  intros Hp. unfold rest. rewrite Nat.div_small by assumption.
  rewrite Nat.mul_0_r. reflexivity.
Qed.

Lemma rest_app k a b :
  length a = (chunk * k)%nat -> rest (a ++ b) = rest b.
Proof.
  intros Ha. unfold rest. rewrite length_app, Ha.
  replace (chunk * k + length b)%nat with (length b + k * chunk)%nat by lia.
  rewrite Nat.div_add by discriminate.
  rewrite Nat.mul_add_distr_l, (Nat.add_comm _ (chunk * k)).
  rewrite <- Ha, drop_app_add. reflexivity.
Qed.

(** The last two statements of [Write], entered with no pending bytes. *)
Lemma Write_tail h1 (p1 : list byte) :
  (let '(h2, p2) :=
     if decide (chunk <= length p1)%nat then
       let n := (length p1 - length p1 mod chunk)%nat in
       (block h1 (take n p1), drop n p1)
     else (h1, p1) in
   (h2, if decide (0 < length p2)%nat then p2 else []))
  = (block h1 p1, rest p1).
Proof.
  assert (Hdm := Nat.div_mod_eq (length p1) chunk).
  destruct (decide (chunk <= length p1)%nat) as [Hc|Hc].
  - cbv zeta.
    replace (length p1 - length p1 mod chunk)%nat
      with (chunk * (length p1 / chunk))%nat by lia.
    rewrite block_take_full. fold (rest p1). f_equal.
    destruct (decide _) as [|Hz]; [reflexivity|].
    destruct (rest p1); [reflexivity | simpl in Hz; lia].
  - rewrite block_lt, rest_lt by lia. f_equal.
    destruct (decide _) as [|Hz]; [reflexivity|].
    destruct p1; [reflexivity | simpl in Hz; lia].
Qed.

Lemma Write_spec d p :
  (length (d_x d) < chunk)%nat ->
  Write d p = Digest (block (d_h d) (d_x d ++ p)) (rest (d_x d ++ p))
                     ((d_len d + Z.of_nat (length p)) mod 2 ^ 64).
Proof.
  destruct d as [h x len]. simpl. intros Hx. unfold Write. simpl.
  destruct (decide (0 < length x)%nat) as [Hnx|Hnx].
  - set (n := Nat.min (chunk - length x) (length p)).
    destruct (decide (length (x ++ take n p) = chunk)) as [Hfull|Hpart].
    + assert (Hsplit : x ++ p = (x ++ take n p) ++ drop n p)
        by (rewrite <- app_assoc, take_drop; reflexivity).
      pose proof (Write_tail (block h (x ++ take n p)) (drop n p)) as Ht.
      destruct (if decide (chunk <= length (drop n p))%nat then _ else _)
        as [h2 p2].
      injection Ht as -> Hx2. rewrite Hx2, Hsplit.
      rewrite (block_app 1 h (x ++ take n p)) by (rewrite Hfull; reflexivity).
      rewrite (rest_app 1 (x ++ take n p)) by (rewrite Hfull; reflexivity).
      reflexivity.
    + rewrite length_app, length_take in Hpart.
      assert (Hn : n = length p) by (unfold n, chunk in *; lia).
      rewrite Hn, drop_all, firstn_all. simpl.
      destruct (decide (chunk <= 0)%nat) as [Hc|_]; [unfold chunk in Hc; lia|].
      simpl. destruct (decide (0 < 0)%nat); [lia|].
      rewrite block_lt, rest_lt
        by (rewrite length_app; unfold n, chunk in *; lia).
      reflexivity.
  - destruct x; [|simpl in Hnx; lia]. simpl.
    pose proof (Write_tail h p) as Ht.
    destruct (if decide (chunk <= length p)%nat then _ else _) as [h2 p2].
    injection Ht as -> ->. reflexivity.
Qed.

(** Writing in two pieces is writing the concatenation. *)
Lemma Write_app d a b :
  (length (d_x d) < chunk)%nat ->
  Write (Write d a) b = Write d (a ++ b).
Proof.
  intros Hx.
  assert (Hr : (length (rest (d_x d ++ a)) < chunk)%nat).
  { rewrite length_rest. apply Nat.mod_upper_bound. discriminate. }
  rewrite (Write_spec d a Hx), (Write_spec d (a ++ b) Hx).
  rewrite Write_spec by exact Hr. simpl.
  rewrite (app_assoc (d_x d) a b).
  set (h := d_h d). set (m := d_x d ++ a) in *.
  set (q := (length m / chunk)%nat).
  assert (Hdm := Nat.div_mod_eq (length m) chunk).
  assert (HF : length (take (chunk * q) m) = (chunk * q)%nat)
    by (rewrite length_take; unfold q; lia).
  assert (Hm : take (chunk * q) m ++ rest m ++ b = m ++ b).
  { unfold rest. fold q. rewrite app_assoc, take_drop. reflexivity. }
  f_equal.
  - rewrite <- (block_take_full h m). fold q.
    rewrite <- (block_app q h _ (rest m ++ b) HF), Hm. reflexivity.
  - rewrite <- (rest_app q _ (rest m ++ b) HF), Hm. reflexivity.
  - rewrite length_app, Nat2Z.inj_add, Zplus_mod_idemp_l. f_equal. lia.
Qed.

Lemma Write_pending d p :
  (length (d_x d) < chunk)%nat -> (length (d_x (Write d p)) < chunk)%nat.
Proof.
  intros Hx. rewrite Write_spec by exact Hx. simpl.
  rewrite length_rest. apply Nat.mod_upper_bound. discriminate.
Qed.

Lemma consistent_pending d :
  consistent d -> (length (d_x d) < chunk)%nat.
Proof.
  unfold consistent, chunk. intros Hc.
  assert (0 <= d_len d mod 64 < 64) by (apply Z.mod_pos_bound; lia). lia.
Qed.

Lemma New_consistent : consistent New.
Proof. reflexivity. Qed.

Lemma Write_consistent d p : consistent d -> consistent (Write d p).
Proof.
  intros Hc. rewrite Write_spec by (apply consistent_pending; exact Hc).
  unfold consistent in *. cbn [d_x d_len].
  rewrite length_rest, length_app. unfold chunk.
  rewrite Nat2Z.inj_mod, Nat2Z.inj_add, Hc, Zplus_mod_idemp_l.
  change (Z.of_nat 64) with 64.
  rewrite Z.mod_mod_divide; [reflexivity|].
  exists (2 ^ 58). reflexivity.
Qed.

(** After the padding nothing is pending: the library's assertion holds. *)
Lemma checkSum_flushes d :
  consistent d -> d_x (Write d (padding (d_len d))) = [].
Proof.
  intros Hc. rewrite Write_spec by (apply consistent_pending; exact Hc).
  cbn [d_x]. apply length_zero_iff_nil.
  rewrite length_rest, length_app. unfold consistent in Hc.
  assert (Hk : 0 <= d_len d mod 64 < 64) by (apply Z.mod_pos_bound; lia).
  assert (Hpad : exists q, (length (d_x d) + length (padding (d_len d))
                            = chunk * q)%nat).
  { unfold padding, BEPutUint64, chunk. cbn [length].
    rewrite length_app, length_replicate, length_map, length_seq.
    destruct (Z.ltb_spec (d_len d mod 64) 56); [exists 1%nat | exists 2%nat]; lia. }
  destruct Hpad as [q ->]. rewrite Nat.mul_comm. apply Nat.Div0.mod_mul.
Qed.

End Sha256Facts.

(* ================================================================== *)
(** * Proofs: reading the body *)
(* ================================================================== *)

Module ReadFacts.

Lemma wrap64_add_l a b : wrap64 (wrap64 a + b) = wrap64 (a + b).
Proof.
  unfold wrap64. f_equal.
  replace ((a + 2 ^ 63) mod 2 ^ 64 - 2 ^ 63 + b + 2 ^ 63)
    with ((a + 2 ^ 63) mod 2 ^ 64 + b) by lia.
  rewrite Zplus_mod_idemp_l. f_equal. lia.
Qed.

Lemma add64_add64 n a b : add64 (add64 n a) b = add64 n (a + b).
Proof. unfold add64. rewrite wrap64_add_l. f_equal. lia. Qed.

Lemma body_fuel_mu b : body_fuel b = S (mu b).
Proof. reflexivity. Qed.

(** Everything the read loops need to know about one [Read]. *)
Lemma Read_spec b n data e b' :
  (0 < n)%nat -> Read b n = ((data, e), b') ->
  content b = data ++ content b' /\
  final b' = final b /\ eager b' = eager b /\
  (e = None \/ (e = Some (final b) /\ segments b' = [])) /\
  (e = None -> (mu b' < mu b)%nat) /\
  (no_empty_read b -> no_empty_read b' /\ (e = None -> data <> [])).
Proof.
  intros Hn. unfold Read, mu, content, no_empty_read.
  destruct b as [segs fin eag]. simpl.
  destruct segs as [|seg more].
  - intros [= <- <- <-]. simpl.
    repeat split; auto; try discriminate.
  - destruct (decide (length seg <= n)%nat) as [Hfit|Hbig].
    + destruct more as [|seg2 more].
      * destruct eag; intros [= <- <- <-]; simpl;
          rewrite ?app_nil_r; repeat split; auto; try discriminate; try lia.
        -- intros _. inversion H; auto.
      * intros [= <- <- <-]. simpl.
        repeat split; auto; try lia.
        -- rewrite !length_app. simpl. lia.
        -- inversion H; auto.
        -- intros _. inversion H; auto.
    + intros [= <- <- <-]. simpl.
      rewrite app_assoc, take_drop.
      repeat split; auto.
      * intros _. rewrite !length_app, length_drop. lia.
      * inversion H as [|? ? Hseg Hmore]; subst. constructor; auto.
        intros Hd. apply (f_equal length) in Hd.
        rewrite length_drop in Hd. simpl in Hd. lia.
      * intros _ Ht. apply (f_equal length) in Ht.
        rewrite length_take in Ht. simpl in Ht. lia.
Qed.

End ReadFacts.

(* ================================================================== *)
(** * Proofs: the handler *)
(* ================================================================== *)

Module HandlerFacts.
Import Handler ReadFacts Sha256Facts.

Lemma bufSize_pos : (0 < bufSize)%nat.
Proof. unfold bufSize. lia. Qed.

Section Loops.
  Variable buffer_grow : nat -> nat -> nat.

(** [ReadFrom] buffers the whole content, whatever the segments are. *)
Lemma ReadFrom_spec fuel : forall b buf cap n g o d,
  (mu b < fuel)%nat ->
  ReadFrom buffer_grow fuel buf cap n (MkState g o b d)
  = Ok ((add64 n (Z.of_nat (length (content b))), reported b,
         buf ++ content b),
        MkState g o (drained b) d).
Proof.
  induction fuel as [|fuel IH]; intros b buf cap n g o d Hfuel; [lia|].
  cbn [ReadFrom]. run.
  set (cap' := if decide (length buf + MinRead <= cap)%nat then cap
               else Nat.max (length buf + MinRead)
                            (buffer_grow cap (length buf))).
  assert (Hroom : (0 < cap' - length buf)%nat).
  { unfold cap'. destruct (decide _); unfold MinRead in *; lia. }
  destruct (Read b (cap' - length buf)) as [[data e] b'] eqn:HR.
  destruct (Read_spec _ _ _ _ _ Hroom HR)
    as (Hc & Hf & He & Herr & Hmu & _).
  destruct Herr as [-> | [-> Hend]].
  - rewrite IH by (specialize (Hmu eq_refl); lia).
    rewrite add64_add64, <- app_assoc, Hc, length_app, Nat2Z.inj_add.
    unfold reported, drained. rewrite Hf, He. reflexivity.
  - assert (Hb' : content b' = []) by (unfold content; rewrite Hend; reflexivity).
    rewrite Hb', app_nil_r in Hc. rewrite Hc.
    assert (Hd : b' = drained b).
    { destruct b' as [s f e]; unfold drained; simpl in *; congruence. }
    rewrite Hd. unfold reported.
    destruct (final b); reflexivity.
Qed.

(** Under the reader contract the streaming loop stops at the final error
    only, having hashed and counted the whole content. *)
Lemma streamLoop_spec fuel : forall b justRead bytesRead hasher g o d,
  (mu b < fuel)%nat -> no_empty_read b -> justRead <> [] ->
  (length (Sha256.d_x hasher) < Sha256.chunk)%nat ->
  streamLoop fuel justRead None bytesRead hasher (MkState g o b d)
  = Ok ((add64 bytesRead (Z.of_nat (length (content b))), Some (final b),
         Sha256.Write hasher (content b)),
        MkState g o (drained b) d).
Proof.
  induction fuel as [|fuel IH];
    intros b jr br h g o d Hfuel Hne Hjr Hx; [lia|].
  cbn [streamLoop].
  assert (Hpos : (0 <? Z.of_nat (length jr)) = true).
  { destruct jr; [congruence|]. simpl. reflexivity. }
  rewrite Hpos, bool_decide_eq_true_2 by reflexivity. cbn [andb]. run.
  destruct (Read b bufSize) as [[data e] b'] eqn:HR.
  destruct (Read_spec _ _ _ _ _ bufSize_pos HR)
    as (Hc & Hf & He & Herr & Hmu & Hok).
  destruct (Hok Hne) as [Hne' Hdata].
  destruct Herr as [-> | [-> Hend]].
  - rewrite IH; auto using Write_pending.
    + rewrite add64_add64, Write_app, Hc, length_app, Nat2Z.inj_add by exact Hx.
      unfold drained. rewrite Hf, He. reflexivity.
    + specialize (Hmu eq_refl). lia.
  - assert (Hb' : content b' = []) by (unfold content; rewrite Hend; reflexivity).
    rewrite Hb', app_nil_r in Hc. rewrite Hc.
    assert (Hd : b' = drained b).
    { destruct b' as [s f e]; unfold drained; simpl in *; congruence. }
    rewrite Hd.
    destruct fuel; cbn [streamLoop];
      rewrite bool_decide_eq_false_2, andb_false_r by discriminate;
      reflexivity.
Qed.

(** Whatever the reads return, the streaming loop ends, and it touches
    nothing but the body. *)
Lemma streamLoop_total fuel : forall b justRead readErr bytesRead hasher g o d,
  (mu b < fuel)%nat ->
  exists r b',
    streamLoop fuel justRead readErr bytesRead hasher (MkState g o b d)
    = Ok (r, MkState g o b' d).
Proof.
  induction fuel as [|fuel IH]; intros b jr e br h g o d Hfuel; [lia|].
  cbn [streamLoop].
  destruct ((0 <? Z.of_nat (length jr)) && bool_decide (e = None)) eqn:Hcond.
  - run. destruct (Read b bufSize) as [[data e'] b'] eqn:HR.
    destruct (Read_spec _ _ _ _ _ bufSize_pos HR)
      as (_ & _ & _ & Herr & Hmu & _).
    destruct Herr as [-> | [-> Hend]].
    + apply IH. specialize (Hmu eq_refl). lia.
    + destruct fuel; cbn [streamLoop];
        rewrite bool_decide_eq_false_2, andb_false_r by discriminate;
        run; eauto.
  - run. eauto.
Qed.


Lemma digestBuffered_spec b g o d :
  digestBuffered buffer_grow (MkState g o b d)
  = Ok ((add64 0 (Z.of_nat (length (content b))),
         Sha256.Sum256 (content b), content b),
        MkState g (match reported b with
                   | Some e => failed e o
                   | None => o
                   end) (drained b) d).
Proof.
  unfold digestBuffered. run.
  rewrite ReadFrom_spec by (rewrite body_fuel_mu; lia).
  destruct (reported b) as [e|]; reflexivity.
Qed.

Lemma digestStreaming_spec b g o d :
  no_empty_read b ->
  digestStreaming (MkState g o b d)
  = Ok ((add64 0 (Z.of_nat (length (content b))),
         (if Is_EOF (final b)
          then Sha256.Sum (Sha256.Write Sha256.New (content b)) else []),
         []),
        MkState g (if Is_EOF (final b) then o else failed (final b) o)
                (drained b) d).
Proof.
  intros Hne. unfold digestStreaming. run.
  destruct (Read b bufSize) as [[data e] b'] eqn:HR.
  destruct (Read_spec _ _ _ _ _ bufSize_pos HR)
    as (Hc & Hf & He & Herr & Hmu & Hok).
  destruct (Hok Hne) as [Hne' Hdata].
  assert (Hnew : (length (Sha256.d_x Sha256.New) < Sha256.chunk)%nat)
    by (simpl; unfold Sha256.chunk; lia).
  destruct Herr as [-> | [-> Hend]].
  - rewrite streamLoop_spec; auto using Write_pending.
    + rewrite add64_add64, Write_app by exact Hnew.
      rewrite <- Nat2Z.inj_add, <- length_app, <- Hc.
      unfold drained. rewrite Hf, He.
      destruct (final b); reflexivity.
    + specialize (Hmu eq_refl). rewrite body_fuel_mu. lia.
  - assert (Hb' : content b' = []) by (unfold content; rewrite Hend; reflexivity).
    rewrite Hb', app_nil_r in Hc. rewrite Hc.
    assert (Hd : b' = drained b).
    { destruct b' as [s f e]; unfold drained; simpl in *; congruence. }
    rewrite Hd. rewrite body_fuel_mu. cbn [streamLoop].
    rewrite bool_decide_eq_false_2, andb_false_r by discriminate.
    run. destruct (final b); reflexivity.
Qed.

(** Without the reader contract the streaming branch still ends: it may
    stop early, it retains no payload, and it reports at most a failure. *)
Lemma digestStreaming_total b g o d :
  exists bytesRead rawHash o' b',
    digestStreaming (MkState g o b d)
    = Ok ((bytesRead, rawHash, []), MkState g o' b' d) /\
    (o' = o \/ exists e, o' = failed e o).
Proof.
  unfold digestStreaming. run.
  destruct (Read b bufSize) as [[data e] b'] eqn:HR.
  destruct (Read_spec _ _ _ _ _ bufSize_pos HR)
    as (_ & _ & _ & _ & Hmu & _).
  assert (Hfuel : (mu b' < body_fuel b)%nat).
  { rewrite body_fuel_mu. destruct e as [e|].
    - unfold Read in HR. destruct (segments b) as [|seg more] eqn:Hs.
      + injection HR as _ _ <-. lia.
      + destruct (decide _); [|discriminate].
        destruct more; [|discriminate].
        destruct (eager b); [|discriminate].
        injection HR as _ _ <-. unfold mu, content. simpl. lia.
    - specialize (Hmu eq_refl). lia. }
  destruct (streamLoop_total (body_fuel b) b' data e
              (add64 0 (Z.of_nat (length data)))
              (Sha256.Write Sha256.New data) g o d Hfuel)
    as ([[br e'] h] & b'' & ->).
  destruct e' as [e'|]; [destruct (Is_EOF e') eqn:Heof|]; run;
    repeat eexists; eauto.
Qed.

(** The body stage of the capture path always ends; it sends nothing,
    sleeps nothing, and leaves the response untouched or failed. *)
Lemma consumeBody_total b g o d :
  exists r o' b',
    consumeBody buffer_grow g (MkState g o b d)
    = Ok (r, MkState g o' b' d) /\
    (o' = o \/ exists e, o' = failed e o).
Proof.
  unfold consumeBody. destruct (bufferRequest g || storePayload g).
  - rewrite digestBuffered_spec. do 3 eexists. split; [reflexivity|].
    destruct (reported b); eauto.
  - destruct (digestStreaming_total b g o d) as (br & h & o' & b' & -> & Ho).
    eauto 6.
Qed.

End Loops.

Section Routes.
  Variable buffer_grow : nat -> nat -> nat.
  Variable env : Env.

(** The chaos stall: it draws, and it sleeps at most once. *)
Lemma chaos_spec g o b d :
  exists naps d',
    chaos env (MkState g o b d)
    = Ok (tt, MkState g (MkOutput (status o) (wrote o) (stderr o) (sent o)
                                  (slept o ++ naps)) b d') /\
    (chance g <= 0 -> naps = []) /\
    (chance g = 100 ->
     naps = [mul64 1000000
               (add64 (delay g)
                  (if variance g >? 0
                   then sub64 (random env (S d) mod variance g)
                              (Z.quot (variance g) 2)
                   else 0))]).
Proof.
  unfold chaos. run.
  destruct (Z.gtb_spec (chance g) 0) as [Hpos|Hnon].
  - unfold Intn at 1. cbn [draws Z.leb Z.compare]. run.
    set (draw := random env d mod 100).
    assert (Hdraw : 0 <= draw < 100) by (apply Z.mod_pos_bound; lia).
    destruct (Z.geb_spec (chance g) draw) as [Hge|Hlt].
    + destruct (Z.gtb_spec (variance g) 0) as [Hv|Hv].
      * unfold Intn. destruct (Z.leb_spec (variance g) 0); [lia|].
        run. unfold Sleep. run.
        do 2 eexists. split; [reflexivity|]. split; [lia|reflexivity].
      * run. unfold Sleep. run.
        do 2 eexists. split; [reflexivity|]. split; [lia|reflexivity].
    + run. exists [], (S d). rewrite app_nil_r.
      split; [destruct o; reflexivity|]. split; [auto|lia].
  - run. exists [], d. rewrite app_nil_r.
    split; [destruct o; reflexivity|]. split; [auto|lia].
Qed.

(** The capture path after its body stage: one record is sent, the
    acknowledgement is written, and the chaos stall follows. *)
Lemma capture_run g req o b d br hash payload o1 b1 :
  consumeBody buffer_grow g (MkState g o b d)
  = Ok ((br, hash, payload), MkState g o1 b1 d) ->
  exists naps d',
    capture buffer_grow env req (MkState g o b d)
    = Ok (tt, MkState g
           (MkOutput (Some (statusCode o1))
              (wrote o1 +:+ ((URL_Path req +:+ " received") +:+ nl))
              (stderr o1)
              (sent o1 ++ [RequestRecord (Now env) (req_Method req)
                             (URL_RequestURI req) br (EncodeToString hash)
                             (string_of_list_byte payload)])
              (slept o1 ++ naps)) b1 d') /\
    (chance g <= 0 -> naps = []) /\
    (chance g = 100 ->
     naps = [mul64 1000000
               (add64 (delay g)
                  (if variance g >? 0
                   then sub64 (random env (S d) mod variance g)
                              (Z.quot (variance g) 2)
                   else 0))]).
Proof.
  intros Hbody. unfold capture. run. rewrite Hbody.
  unfold send, Fprintln_resp, respWrite. run.
  match goal with
  | |- context [chaos env (MkState g ?o' b1 d)] =>
      destruct (chaos_spec g o' b1 d) as (naps & d' & -> & H0 & H100)
  end.
  exists naps, d'. split; [reflexivity | auto].
Qed.

Lemma captured_route g req s :
  globals s = g -> captured env g req = true ->
  recordRequest buffer_grow env req s = capture buffer_grow env req s.
Proof.
  intros <-. unfold captured, overLimit, recordRequest. run.
  rewrite !andb_true_iff, !negb_true_iff. intros [[[-> ->] ->] ->].
  reflexivity.
Qed.

Lemma configured_route g req s :
  globals s = g -> configured env g req = true ->
  recordRequest buffer_grow env req s = configure req s.
Proof.
  intros <-. unfold configured, overLimit, recordRequest. run.
  rewrite !andb_true_iff, !negb_true_iff. intros [[[-> ->] ->] ->].
  reflexivity.
Qed.

Lemma printCalls_run calls : forall g o b d,
  exists o',
    printCalls calls (MkState g o b d) = Ok (tt, MkState g o' b d) /\
    (o' = o \/ status o' = Some (statusCode o)) /\
    stderr o' = stderr o /\ sent o' = sent o /\ slept o' = slept o.
Proof.
  induction calls as [|call rest IH]; intros g o b d; cbn [printCalls].
  - run. exists o. repeat split; auto.
  - unfold Fprintln_resp, respWrite. run.
    match goal with
    | |- context [printCalls rest (MkState g ?o1 b d)] =>
        destruct (IH g o1 b d) as (o' & -> & Hst & He & Hs & Hn)
    end.
    exists o'. split; [reflexivity|]. cbn in *.
    repeat split; auto.
    destruct Hst as [-> | ->]; auto.
Qed.

(** The configuration path in closed form. *)
Lemma configure_run g req o b d :
  configure req (MkState g o b d)
  = let delay' := (setFromQueryParam (Get (URL_Query req) "delay") (delay g)).1 in
    let variance' :=
      (setFromQueryParam (Get (URL_Query req) "variance") (variance g)).1 in
    let chance' := (setFromQueryParam (Get (URL_Query req) "chance") (chance g)).1 in
    let limit' :=
      (setFromQueryParam (Get (URL_Query req) "limit") (goroutinelimit g)).1 in
    Ok (tt, MkState
          (MkGlobals limit' delay' variance' chance'
                     (bufferRequest g) (storePayload g) (recordedCalls g))
          (MkOutput (Some (statusCode o))
             (wrote o +:+
              ("delay: " +:+ Itoa delay' +:+ "ms" +:+ nl
               +:+ "variance: " +:+ Itoa variance' +:+ "ms" +:+ nl
               +:+ "chance: " +:+ Itoa chance' +:+ "%" +:+ nl
               +:+ "Go routine 'limit': " +:+ Itoa limit' +:+ nl))
             (stderr o) (sent o) (slept o)) b d).
Proof.
  unfold configure. run.
  destruct (setFromQueryParam (Get (URL_Query req) "delay") (delay g)).
  destruct (setFromQueryParam (Get (URL_Query req) "variance") (variance g)).
  destruct (setFromQueryParam (Get (URL_Query req) "chance") (chance g)).
  destruct (setFromQueryParam (Get (URL_Query req) "limit") (goroutinelimit g)).
  reflexivity.
Qed.

(** Every request is answered, and 503 and 404 come from the first two
    routes only. *)
Lemma laterRoutes_total g req b :
  exists s',
    laterRoutes buffer_grow env req (MkState g no_output b 0) = Ok (tt, s') /\
    (statusCode (output s') = 200 \/ statusCode (output s') = 500).
Proof.
  unfold laterRoutes.
  destruct (Contains (URL_Path req) "recordedRequests").
  - unfold inspect. run.
    destruct (printCalls_run (recordedCalls g) g no_output b 0)
      as (o' & -> & Hst & _).
    eexists. split; [reflexivity|]. left. cbn.
    destruct Hst as [-> | Hst]; [reflexivity|].
    unfold statusCode. rewrite Hst. reflexivity.
  - destruct (Contains (URL_Path req) "configDelay").
    + rewrite configure_run. cbn zeta. eexists. split; [reflexivity|].
      left. reflexivity.
    + destruct (consumeBody_total buffer_grow b g no_output 0)
        as ([[br hash] payload] & o1 & b1 & Hbody & Ho1).
      destruct (capture_run g req _ _ _ _ _ _ _ _ Hbody)
        as (naps & d' & -> & _).
      eexists. split; [reflexivity|]. cbn.
      destruct Ho1 as [-> | [e ->]]; [left | right]; reflexivity.
Qed.

End Routes.
End HandlerFacts.

(* ================================================================== *)
(** * The claims *)
(* ================================================================== *)

Module Claims.
Import GoSlice History HistoryFacts Handler ReadFacts HandlerFacts Sha256Facts Samples.
Import MoreSamples.

(** C1 (the code departs from it).  The History Buffer is NOT bounded by the
    capacity: for every capacity of at least one, once more records than the
    capacity have been drained the buffer is longer than the capacity, since
    [storeCalls] overwrites the truncated slice with the full one. *)
Theorem history_exceeds_capacity growslice callCount calls :
  1 <= callCount -> callCount < Z.of_nat (length calls) ->
  exists st, storeCalls growslice callCount calls = Some st /\
             callCount < Z.of_nat (length (history st)).
Proof.
  intros HC HN.
  destruct (storeCalls_rev growslice callCount calls HC) as (st & Hst & Hh).
  exists st. split; [exact Hst|].
  rewrite Hh, length_rev. exact HN.
Qed.

Lemma history_exceeds_capacity_witness :
  exists st, storeCalls growslice_double 1 [rec_named "A"; rec_named "B"] = Some st /\
             1 < Z.of_nat (length (history st)).
Proof.
  apply (history_exceeds_capacity growslice_double 1
           [rec_named "A"; rec_named "B"]); simpl; lia.
Defined.

(** C2 (the code departs from it).  With capacity 3, draining A, B, C, D
    leaves the buffer [D, C, B, A]: nothing is evicted. *)
Theorem history_abcd_keeps_all growslice a b c d :
  exists st, storeCalls growslice 3 [a; b; c; d] = Some st /\
             history st = [d; c; b; a].
Proof.
  destruct (storeCalls_rev growslice 3 [a; b; c; d]) as (st & Hst & Hh); [lia|].
  exists st. split; [exact Hst | exact Hh].
Qed.

(** C5.  For every capacity of at least one and every sequence of at most
    that many records, the consumer leaves exactly those records in the
    buffer, newest first, none evicted. *)
Theorem history_within_capacity growslice callCount calls :
  1 <= callCount -> Z.of_nat (length calls) <= callCount ->
  exists st, storeCalls growslice callCount calls = Some st /\
             history st = rev calls /\
             Z.of_nat (length (history st)) <= callCount.
Proof.
  intros HC HN.
  destruct (storeCalls_rev growslice callCount calls HC) as (st & Hst & Hh).
  exists st. split; [exact Hst|]. split; [exact Hh|].
  rewrite Hh, length_rev. exact HN.
Qed.

Lemma history_within_capacity_witness :
  exists st, storeCalls growslice_double 3 [rec_named "A"; rec_named "B"] = Some st /\
             history st = [rec_named "B"; rec_named "A"] /\
             Z.of_nat (length (history st)) <= 3.
Proof.
  apply (history_within_capacity growslice_double 3
           [rec_named "A"; rec_named "B"]); simpl; lia.
Defined.

Section Served.
  Variable buffer_grow : nat -> nat -> nat.
  Variable env : Env.

(** What the capture path leaves for a body read under the reader
    contract. *)
Lemma capture_served g req :
  captured env g req = true -> no_empty_read (req_Body req) ->
  let b := req_Body req in
  let buffered := bufferRequest g || storePayload g in
  let o1 := if buffered
            then match reported b with Some e => failed e no_output
                                     | None => no_output end
            else if Is_EOF (final b) then no_output
                 else failed (final b) no_output in
  exists naps d',
    serve buffer_grow env g req
    = Ok (tt, MkState g
           (MkOutput (Some (statusCode o1))
              (wrote o1 +:+ ((URL_Path req +:+ " received") +:+ nl))
              (stderr o1)
              [RequestRecord (Now env) (req_Method req) (URL_RequestURI req)
                 (add64 0 (Z.of_nat (length (content b))))
                 (EncodeToString
                    (if buffered then Sha256.Sum256 (content b)
                     else if Is_EOF (final b)
                          then Sha256.Sum (Sha256.Write Sha256.New (content b))
                          else []))
                 (string_of_list_byte (if buffered then content b else []))]
              naps) (drained b) d') /\
    (chance g <= 0 -> naps = []) /\
    (chance g = 100 ->
     naps = [mul64 1000000
               (add64 (delay g)
                  (if variance g >? 0
                   then sub64 (random env 1 mod variance g)
                              (Z.quot (variance g) 2)
                   else 0))]).
Proof.
  intros Hcap Hne b buffered o1. unfold serve. fold b.
  rewrite (captured_route buffer_grow env g) by (reflexivity || exact Hcap).
  assert (Hbody : consumeBody buffer_grow g (MkState g no_output b 0)
    = Ok ((add64 0 (Z.of_nat (length (content b))),
           (if buffered then Sha256.Sum256 (content b)
            else if Is_EOF (final b)
                 then Sha256.Sum (Sha256.Write Sha256.New (content b))
                 else []),
           (if buffered then content b else [])),
          MkState g o1 (drained b) 0)).
  { unfold consumeBody, o1, buffered.
    destruct (bufferRequest g || storePayload g).
    - apply digestBuffered_spec.
    - apply digestStreaming_spec. exact Hne. }
  destruct (capture_run buffer_grow env g req _ _ _ _ _ _ _ _ Hbody)
    as (naps & d' & Hrun & H0 & H100).
  exists naps, d'. split; [|auto].
  rewrite Hrun. f_equal. f_equal. f_equal.
  unfold o1. destruct buffered; [destruct (reported b)|destruct (Is_EOF (final b))];
    reflexivity.
Qed.


(** Every request on the capture path is answered with one record sent,
    whatever its body does. *)
Lemma capture_answered g req :
  captured env g req = true ->
  exists s r naps,
    serve buffer_grow env g req = Ok (tt, s) /\
    globals s = g /\ sent (output s) = [r] /\ slept (output s) = naps /\
    (bufferRequest g || storePayload g = false -> Payload r = "") /\
    (chance g <= 0 -> naps = []) /\
    (chance g = 100 ->
     naps = [mul64 1000000
               (add64 (delay g)
                  (if variance g >? 0
                   then sub64 (random env 1 mod variance g)
                              (Z.quot (variance g) 2)
                   else 0))]).
Proof.
  intros Hcap. unfold serve.
  rewrite (captured_route buffer_grow env g) by (reflexivity || exact Hcap).
  assert (Hbody : exists br hash payload o1 b1,
    consumeBody buffer_grow g (MkState g no_output (req_Body req) 0)
    = Ok ((br, hash, payload), MkState g o1 b1 0) /\
    (o1 = no_output \/ exists e, o1 = failed e no_output) /\
    (bufferRequest g || storePayload g = false -> payload = [])).
  { unfold consumeBody. destruct (bufferRequest g || storePayload g).
    - rewrite digestBuffered_spec. do 5 eexists. split; [reflexivity|].
      split; [|discriminate]. destruct (reported (req_Body req)); eauto.
    - destruct (digestStreaming_total (req_Body req) g no_output 0)
        as (br & h & o' & b' & -> & Ho).
      do 5 eexists. split; [reflexivity|]. auto. }
  destruct Hbody as (br & hash & payload & o1 & b1 & Hbody & Ho1 & Hpay).
  destruct (capture_run buffer_grow env g req _ _ _ _ _ _ _ _ Hbody)
    as (naps & d' & -> & H0 & H100).
  do 3 eexists. split; [reflexivity|]. cbn.
  split; [reflexivity|].
  split; [destruct Ho1 as [-> | [e ->]]; reflexivity|].
  split; [destruct Ho1 as [-> | [e ->]]; reflexivity|].
  split; [|auto].
  intros Hs. rewrite (Hpay Hs). reflexivity.
Qed.

End Served.

(** C3 (as stated it fails): in both modes a body that fails after three
    bytes is answered with 500 and still recorded. *)
Lemma failed_read_is_recorded :
  (exists s r, serve buffer_double env0 streaming (post "/upload" broken) = Ok (tt, s) /\
               status (output s) = Some 500 /\ sent (output s) = [r]) /\
  (exists s r, serve buffer_double env0 buffering (post "/upload" broken) = Ok (tt, s) /\
               status (output s) = Some 500 /\ sent (output s) = [r]).
Proof.
  split; do 2 eexists; (split; [vm_compute; reflexivity|]);
    split; reflexivity.
Qed.

(** Why the streaming mode needs the reader contract here: after a read of
    zero bytes with a nil error the streaming loop stops, and the failure
    that follows is never read; the request is answered 200. *)
Remark streaming_misses_a_failure_after_an_empty_read :
  exists s r,
    serve buffer_double env0 streaming
          (post "/upload"
             (MkBody [list_byte_of_string "hel"; []] (Failure "connection reset")
                     false))
    = Ok (tt, s) /\
    statusCode (output s) = 200 /\ sent (output s) = [r] /\ PayloadSize r = 3.
Proof.
  do 2 eexists. split; [vm_compute; reflexivity|]. repeat split; reflexivity.
Qed.

(** C3 (amended).  On the capture path, when the body read fails with an
    error that is not the end of the body, the handler answers 500 with the
    error text, logs it, and still sends one record, with the bytes counted
    so far; in streaming mode its digest and payload are empty; in buffered
    mode its digest is that of the bytes read and, with [storePayload] on,
    its payload is their text.  The acknowledgement line follows the error
    text.  In buffered mode this holds for every reader; in streaming mode
    for a reader that keeps the reader contract, since the streaming loop
    stops at a read of zero bytes with a nil error. *)
Theorem failed_read_answered_and_recorded buffer_grow env g req text :
  captured env g req = true ->
  final (req_Body req) = Failure text ->
  bufferRequest g || storePayload g = true \/ no_empty_read (req_Body req) ->
  let buffered := bufferRequest g || storePayload g in
  let read := content (req_Body req) in
  exists s r,
    serve buffer_grow env g req = Ok (tt, s) /\
    status (output s) = Some 500 /\
    wrote (output s) = (text +:+ nl) +:+ ((URL_Path req +:+ " received") +:+ nl) /\
    stderr (output s) = text +:+ nl /\
    sent (output s) = [r] /\
    Timestamp r = Now env /\ Method r = req_Method req /\
    Uri r = URL_RequestURI req /\
    PayloadSize r = add64 0 (Z.of_nat (length read)) /\
    PayloadHash r
    = (if buffered then EncodeToString (Sha256.Sum256 read) else "") /\
    (buffered = false -> Payload r = "") /\
    (storePayload g = true -> Payload r = string_of_list_byte read).
Proof.
  intros Hcap Hfin Hmode. cbv zeta.
  destruct (bufferRequest g || storePayload g) eqn:Hb.
  - unfold serve.
    rewrite (captured_route buffer_grow env g) by (reflexivity || exact Hcap).
    assert (Hbody := digestBuffered_spec buffer_grow (req_Body req) g no_output 0).
    assert (Hc : consumeBody buffer_grow g = digestBuffered buffer_grow)
      by (unfold consumeBody; rewrite Hb; reflexivity).
    rewrite <- Hc in Hbody.
    destruct (capture_run buffer_grow env g req _ _ _ _ _ _ _ _ Hbody)
      as (naps & d' & -> & _).
    unfold reported. rewrite Hfin.
    do 2 eexists. split; [reflexivity|]. cbn.
    repeat split; try reflexivity. discriminate.
  - destruct Hmode as [Hmode|Hne]; [discriminate|].
    destruct (capture_served buffer_grow env g req Hcap Hne)
      as (naps & d' & Hrun & _).
    cbv zeta in Hrun. rewrite Hb, Hfin in Hrun. cbn [Is_EOF] in Hrun.
    do 2 eexists. split; [exact Hrun|]. cbn.
    repeat split; try reflexivity.
    intros Hs. rewrite Hs, orb_true_r in Hb. discriminate.
Qed.

Lemma failed_read_answered_and_recorded_witness :
  exists s r,
    serve buffer_double env0 streaming (post "/upload" broken) = Ok (tt, s) /\
    status (output s) = Some 500 /\
    wrote (output s)
    = ("connection reset" +:+ nl)
      +:+ ((URL_Path (post "/upload" broken) +:+ " received") +:+ nl) /\
    stderr (output s) = "connection reset" +:+ nl /\
    sent (output s) = [r] /\
    Timestamp r = Now env0 /\ Method r = req_Method (post "/upload" broken) /\
    Uri r = URL_RequestURI (post "/upload" broken) /\
    PayloadSize r
    = add64 0 (Z.of_nat (length (content (req_Body (post "/upload" broken))))) /\
    PayloadHash r
    = (if bufferRequest streaming || storePayload streaming
       then EncodeToString
              (Sha256.Sum256 (content (req_Body (post "/upload" broken))))
       else "") /\
    (bufferRequest streaming || storePayload streaming = false -> Payload r = "") /\
    (storePayload streaming = true ->
     Payload r
     = string_of_list_byte (content (req_Body (post "/upload" broken)))).
Proof.
  apply (failed_read_answered_and_recorded buffer_double env0 streaming
           (post "/upload" broken) "connection reset").
  - reflexivity.
  - reflexivity.
  - right. repeat constructor; discriminate.
Defined.

(** C4 (the code departs from it).  With [-b] alone (buffering on, payload
    retention off) the record keeps the whole body text. *)
Theorem buffered_mode_keeps_payload buffer_grow env g req :
  captured env g req = true ->
  bufferRequest g = true -> storePayload g = false ->
  exists s r,
    serve buffer_grow env g req = Ok (tt, s) /\ sent (output s) = [r] /\
    Payload r = string_of_list_byte (content (req_Body req)).
Proof.
  intros Hcap Hb Hs. unfold serve.
  rewrite (captured_route buffer_grow env g) by (reflexivity || exact Hcap).
  assert (Hbody := digestBuffered_spec buffer_grow (req_Body req) g no_output 0).
  assert (Hc : consumeBody buffer_grow g = digestBuffered buffer_grow)
    by (unfold consumeBody; rewrite Hb; reflexivity).
  rewrite <- Hc in Hbody.
  destruct (capture_run buffer_grow env g req _ _ _ _ _ _ _ _ Hbody)
    as (naps & d' & -> & _).
  do 2 eexists. split; [reflexivity|]. cbn.
  split; [destruct (reported (req_Body req)); reflexivity | reflexivity].
Qed.

Lemma buffered_mode_keeps_payload_witness :
  exists s r,
    serve buffer_double env0 buffering (post "/upload" hello) = Ok (tt, s) /\
    sent (output s) = [r] /\ Payload r = "hello".
Proof.
  apply (buffered_mode_keeps_payload buffer_double env0 buffering
           (post "/upload" hello)); reflexivity.
Defined.

Lemma hexdigit_lower n :
  existsb (Ascii.eqb (hexdigit n)) (list_ascii_of_string hextable) = true.
Proof.
  unfold hexdigit. generalize (N.to_nat n). intros k.
  do 16 (destruct k as [|k]; [reflexivity|]). reflexivity.
Qed.

Lemma EncodeToString_lower_hex src : is_lower_hex (EncodeToString src) = true.
Proof.
  unfold is_lower_hex. induction src as [|v rest IH]; [reflexivity|].
  cbn [EncodeToString list_ascii_of_string forallb].
  rewrite !hexdigit_lower. exact IH.
Qed.

(** Why the reader contract is assumed: a read of zero bytes with a nil
    error, which [io.Reader] implementations are told not to return and the
    server's request bodies do not return, would end the streaming loop
    after the three bytes read so far. *)
Remark streaming_stops_at_an_empty_read :
  exists s r,
    serve buffer_double env0 streaming
          (post "/upload"
             (MkBody [list_byte_of_string "hel"; []; list_byte_of_string "lo"]
                     EOF false))
    = Ok (tt, s) /\
    sent (output s) = [r] /\ PayloadSize r = 3.
Proof.
  do 2 eexists. split; [vm_compute; reflexivity|]. split; reflexivity.
Qed.





Lemma setFromQueryParam_applied param old :
  param_applied param old (setFromQueryParam param old).1.
Proof.
  unfold param_applied, setFromQueryParam.
  destruct (String.eqb_spec "" param) as [<- | Hne]; cbn.
  - split; [reflexivity | congruence].
  - destruct (Atoi param); cbn; auto.
Qed.

(** C7 (as stated it fails): a request whose [delay] does not parse is
    answered exactly like one that names no parameter at all, although
    [setFromQueryParam] returned an error: nothing reaches the client or
    the log. *)
Lemma config_error_is_dropped :
  (setFromQueryParam "abc" 0).2 = Some ErrSyntax /\
  serve buffer_double env0 streaming (config {[ "delay" := ["abc"] ]})
  = serve buffer_double env0 streaming (config ∅) /\
  exists s,
    serve buffer_double env0 streaming (config {[ "delay" := ["abc"] ]})
    = Ok (tt, s) /\
    status (output s) = Some 200 /\ stderr (output s) = "" /\
    wrote (output s)
    = "delay: 0ms" +:+ nl +:+ "variance: 0ms" +:+ nl +:+ "chance: 0%" +:+ nl
      +:+ "Go routine 'limit': 0" +:+ nl.
Proof.
  split; [reflexivity|]. split; [vm_compute; reflexivity|].
  eexists. split; [vm_compute; reflexivity|].
  repeat split; reflexivity.
Qed.

(** C7 (amended).  On the configuration path each of [delay], [variance],
    [chance], [limit] that parses as an integer replaces its field; one that
    does not parse leaves its field as it was, and the error that
    [setFromQueryParam] returns for it is dropped by the handler; the other
    parameters are applied all the same, the request is answered 200, and
    the response echoes the four resulting values and nothing else. *)
Theorem config_params_applied buffer_grow env g req :
  configured env g req = true ->
  exists g',
    serve buffer_grow env g req
    = Ok (tt, MkState g'
           (MkOutput (Some 200)
              ("delay: " +:+ Itoa (delay g') +:+ "ms" +:+ nl
               +:+ "variance: " +:+ Itoa (variance g') +:+ "ms" +:+ nl
               +:+ "chance: " +:+ Itoa (chance g') +:+ "%" +:+ nl
               +:+ "Go routine 'limit': " +:+ Itoa (goroutinelimit g') +:+ nl)
              "" [] []) (req_Body req) 0) /\
    param_applied (Get (URL_Query req) "delay") (delay g) (delay g') /\
    param_applied (Get (URL_Query req) "variance") (variance g) (variance g') /\
    param_applied (Get (URL_Query req) "chance") (chance g) (chance g') /\
    param_applied (Get (URL_Query req) "limit") (goroutinelimit g)
                  (goroutinelimit g') /\
    bufferRequest g' = bufferRequest g /\
    storePayload g' = storePayload g /\
    recordedCalls g' = recordedCalls g.
Proof.
  intros Hconf. unfold serve.
  rewrite (configured_route buffer_grow env g) by (reflexivity || exact Hconf).
  rewrite configure_run. cbv zeta.
  exists (MkGlobals
    (setFromQueryParam (Get (URL_Query req) "limit") (goroutinelimit g)).1
    (setFromQueryParam (Get (URL_Query req) "delay") (delay g)).1
    (setFromQueryParam (Get (URL_Query req) "variance") (variance g)).1
    (setFromQueryParam (Get (URL_Query req) "chance") (chance g)).1
    (bufferRequest g) (storePayload g) (recordedCalls g)).
  split; [reflexivity|]. cbn [goroutinelimit delay variance chance
    bufferRequest storePayload recordedCalls].
  repeat split; apply setFromQueryParam_applied.
Qed.

Lemma config_params_applied_witness :
  exists g',
    serve buffer_double env0 streaming mixed_config
    = Ok (tt, MkState g'
           (MkOutput (Some 200)
              ("delay: " +:+ Itoa (delay g') +:+ "ms" +:+ nl
               +:+ "variance: " +:+ Itoa (variance g') +:+ "ms" +:+ nl
               +:+ "chance: " +:+ Itoa (chance g') +:+ "%" +:+ nl
               +:+ "Go routine 'limit': " +:+ Itoa (goroutinelimit g') +:+ nl)
              "" [] []) (req_Body mixed_config) 0) /\
    param_applied (Get (URL_Query mixed_config) "delay") (delay streaming) (delay g') /\
    param_applied (Get (URL_Query mixed_config) "variance") (variance streaming)
                  (variance g') /\
    param_applied (Get (URL_Query mixed_config) "chance") (chance streaming)
                  (chance g') /\
    param_applied (Get (URL_Query mixed_config) "limit") (goroutinelimit streaming)
                  (goroutinelimit g') /\
    bufferRequest g' = bufferRequest streaming /\
    storePayload g' = storePayload streaming /\
    recordedCalls g' = recordedCalls streaming.
Proof.
  apply (config_params_applied buffer_double env0 streaming mixed_config).
  vm_compute. reflexivity.
Defined.

(** C8.  On the capture path no [time.Sleep] is reached when [chance <= 0],
    whatever [delay] and [variance] are; when [chance = 100] every request
    reaches it once, the draw below 100 never exceeding the chance, with
    [delay] plus the variance shift as its duration in nanoseconds. *)
Theorem chaos_stall_boundaries buffer_grow env g req :
  captured env g req = true ->
  exists s,
    serve buffer_grow env g req = Ok (tt, s) /\
    (chance g <= 0 -> slept (output s) = []) /\
    (chance g = 100 ->
     slept (output s)
     = [mul64 1000000
          (add64 (delay g)
             (if variance g >? 0
              then sub64 (random env 1 mod variance g) (Z.quot (variance g) 2)
              else 0))]).
Proof.
  intros Hcap.
  destruct (capture_answered buffer_grow env g req Hcap)
    as (s & r & naps & Hrun & _ & _ & Hn & _ & H0 & H100).
  exists s. rewrite Hn. auto.
Qed.

Lemma chaos_stall_boundaries_witness :
  (exists s,
     serve buffer_double env0 (MkGlobals 0 50 0 100 false false [])
           (post "/upload" hello) = Ok (tt, s) /\
     slept (output s) = [50000000]) /\
  (exists s,
     serve buffer_double env0 (MkGlobals 0 50 10 0 false false [])
           (post "/upload" hello) = Ok (tt, s) /\
     slept (output s) = []).
Proof.
  split.
  - destruct (chaos_stall_boundaries buffer_double env0
                (MkGlobals 0 50 0 100 false false []) (post "/upload" hello))
      as (s & Hs & _ & H100); [reflexivity|].
    exists s. split; [exact Hs | exact (H100 eq_refl)].
  - destruct (chaos_stall_boundaries buffer_double env0
                (MkGlobals 0 50 10 0 false false []) (post "/upload" hello))
      as (s & Hs & H0 & _); [reflexivity|].
    exists s. split; [exact Hs | apply H0; simpl; lia].
Defined.

Lemma not_over_route buffer_grow env g req :
  overLimit env g = false ->
  serve buffer_grow env g req
  = (if String.eqb (URL_Path req) "/favicon.ico" then favicon
     else laterRoutes buffer_grow env req)
      (MkState g no_output (req_Body req) 0).
Proof.
  unfold overLimit, serve, recordRequest, laterRoutes. run.
  intros ->. reflexivity.
Qed.

(** C9.  With a limit of zero or less no request is answered 503, whatever
    the goroutine count; with a positive limit that the goroutine count
    exceeds, the answer is 503 with a body naming the limit, and nothing
    else happens: the body is not read, no record is sent, nothing sleeps. *)
Theorem admission_guard buffer_grow env g req :
  (goroutinelimit g <= 0 ->
   exists s, serve buffer_grow env g req = Ok (tt, s) /\
             statusCode (output s) <> 503) /\
  (goroutinelimit g > 0 -> NumGoroutine env > goroutinelimit g ->
   serve buffer_grow env g req
   = Ok (tt, MkState g
          (MkOutput (Some 503)
             (("Hit the Go Routine limit of: " +:+ Itoa (goroutinelimit g))
              +:+ nl) "" [] [])
          (req_Body req) 0)).
Proof.
  split.
  - intros Hlim.
    rewrite not_over_route
      by (unfold overLimit; destruct (Z.gtb_spec (goroutinelimit g) 0);
          [lia | reflexivity]).
    destruct (String.eqb (URL_Path req) "/favicon.ico").
    + eexists. split; [reflexivity|]. cbn. discriminate.
    + destruct (laterRoutes_total buffer_grow env g req (req_Body req))
        as (s & -> & Hst).
      exists s. split; [reflexivity|]. lia.
  - intros Hpos Hover. unfold serve, recordRequest. run.
    destruct (Z.gtb_spec (goroutinelimit g) 0); [|lia].
    destruct (Z.gtb_spec (NumGoroutine env) (goroutinelimit g)); [|lia].
    reflexivity.
Qed.

Lemma admission_guard_witness :
  (exists s, serve buffer_double (MkEnv 1000 "2024-01-01T00:00:00Z" Z.of_nat)
                   streaming (post "/upload" hello) = Ok (tt, s) /\
             statusCode (output s) <> 503) /\
  serve buffer_double (MkEnv 9 "2024-01-01T00:00:00Z" Z.of_nat)
        (MkGlobals 8 0 0 100 false false []) (post "/upload" hello)
  = Ok (tt, MkState (MkGlobals 8 0 0 100 false false [])
         (MkOutput (Some 503) (("Hit the Go Routine limit of: " +:+ "8") +:+ nl)
                   "" [] [])
         hello 0).
Proof.
  split.
  - apply (admission_guard buffer_double
             (MkEnv 1000 "2024-01-01T00:00:00Z" Z.of_nat) streaming
             (post "/upload" hello)).
    simpl. lia.
  - apply (admission_guard buffer_double
             (MkEnv 9 "2024-01-01T00:00:00Z" Z.of_nat)
             (MkGlobals 8 0 0 100 false false []) (post "/upload" hello));
      simpl; lia.
Defined.

(** C10.  When the admission guard lets the request through, the fixed 404
    is the answer exactly when the path IS "/favicon.ico"; any other path,
    also one that contains "favicon.ico", goes to the routes that follow
    (inspection, configuration, else capture) and is never answered 404. *)
Theorem favicon_exact_match buffer_grow env g req :
  overLimit env g = false ->
  (URL_Path req = "/favicon.ico" ->
   serve buffer_grow env g req
   = Ok (tt, MkState g (MkOutput (Some 404) ("No icon for you!" +:+ nl) "" [] [])
                     (req_Body req) 0)) /\
  (URL_Path req <> "/favicon.ico" ->
   serve buffer_grow env g req
   = laterRoutes buffer_grow env req (MkState g no_output (req_Body req) 0) /\
   exists s, serve buffer_grow env g req = Ok (tt, s) /\
             statusCode (output s) <> 404).
Proof.
  intros Hover. rewrite (not_over_route _ _ _ _ Hover).
  destruct (String.eqb_spec (URL_Path req) "/favicon.ico") as [Heq|Hne].
  - split; [reflexivity | contradiction].
  - split; [contradiction|]. intros _. split; [reflexivity|].
    destruct (laterRoutes_total buffer_grow env g req (req_Body req))
      as (s & -> & Hst).
    exists s. split; [reflexivity|]. lia.
Qed.

Lemma favicon_exact_match_witness :
  Contains "/x/favicon.ico" "favicon.ico" = true /\
  serve buffer_double env0 streaming (post "/x/favicon.ico" hello)
  = capture buffer_double env0 (post "/x/favicon.ico" hello)
      (MkState streaming no_output hello 0) /\
  exists s, serve buffer_double env0 streaming (post "/x/favicon.ico" hello)
            = Ok (tt, s) /\ statusCode (output s) <> 404.
Proof.
  split; [reflexivity|].
  apply (favicon_exact_match buffer_double env0 streaming
           (post "/x/favicon.ico" hello)); [reflexivity | discriminate].
Defined.

End Claims.

(* ================================================================== *)
(** * Proofs: strings and numbers *)
(* ================================================================== *)

Module StringFacts.

Lemma prefix_app (sub post : string) : String.prefix sub (sub +:+ post) = true.
Proof.
  induction sub as [|c sub IH]; simpl.
  - destruct post; reflexivity.
  - destruct (ascii_dec c c); [exact IH | congruence].
Qed.

Lemma prefix_split (sub s : string) :
  String.prefix sub s = true -> exists post, s = sub +:+ post.
Proof.
  revert s. induction sub as [|c sub IH]; intros s.
  - exists s. reflexivity.
  - destruct s as [|c' s]; simpl; [discriminate|].
    destruct (ascii_dec c c') as [<-|]; [|discriminate].
    intros H. destruct (IH s H) as [post ->]. exists post. reflexivity.
Qed.

(** [strings.Contains] holds exactly of the strings that have the
    substring somewhere inside. *)
Lemma Contains_substring (s sub : string) :
  Contains s sub = true <-> exists pre post, s = pre +:+ (sub +:+ post).
Proof.
  split.
  - induction s as [|c s IH]; cbn [Contains].
    + destruct (String.prefix sub "") eqn:Hp; [|discriminate].
      intros _. destruct (prefix_split _ _ Hp) as [post Hs].
      exists "", post. exact Hs.
    + destruct (String.prefix sub (String c s)) eqn:Hp.
      * intros _. destruct (prefix_split _ _ Hp) as [post Hs].
        exists "", post. exact Hs.
      * intros H. destruct (IH H) as (pre & post & ->).
        exists (String c pre), post. reflexivity.
  - intros (pre & post & ->).
    induction pre as [|c pre IH].
    + change ("" +:+ (sub +:+ post)) with (sub +:+ post).
      destruct (sub +:+ post) eqn:E; cbn [Contains]; rewrite <- E, prefix_app;
        reflexivity.
    + change (String c pre +:+ (sub +:+ post))
        with (String c (pre +:+ (sub +:+ post))).
      cbn [Contains]. rewrite IH. destruct (String.prefix sub _); reflexivity.
Qed.

Lemma digit_of_sign c : Ascii.eqb c "-" || Ascii.eqb c "+" = true -> digit_of c = None.
Proof.
  destruct (Ascii.eqb_spec c "-") as [->|]; [reflexivity|].
  destruct (Ascii.eqb_spec c "+") as [->|]; [reflexivity|]. discriminate.
Qed.

Lemma of_uint_acc_ge (d : Decimal.uint) : forall acc : positive,
  (acc <= Pos.of_uint_acc d acc)%positive.
Proof.
  induction d; intros acc; cbn [Pos.of_uint_acc]; [lia|..];
    match goal with
    | |- (_ <= Pos.of_uint_acc _ ?p)%positive => specialize (IHd p); lia
    end.
Qed.

(** Evaluates the character test of [digits] on a literal digit. *)
Ltac digit_step :=
  unfold digit_of;
  match goal with
  | |- context [Z.of_nat (nat_of_ascii ?c)] =>
      let v := eval vm_compute in (Z.of_nat (nat_of_ascii c)) in
      change (Z.of_nat (nat_of_ascii c)) with v
  end;
  cbn [Z.leb Z.compare Pos.compare Pos.compare_cont andb]; cbv zeta.

(** The value of a decimal numeral read from the left, as [digits] reads,
    when it fits 64 bits. *)
Lemma digits_uint (d : Decimal.uint) : forall acc : positive,
  Z.pos (Pos.of_uint_acc d acc) <= 2 ^ 64 - 1 ->
  digits (NilEmpty.string_of_uint d) (Z.pos acc)
  = inl (Z.pos (Pos.of_uint_acc d acc)).
Proof.
  induction d; intros acc Hmax;
    cbn [NilEmpty.string_of_uint digits Pos.of_uint_acc] in *;
    try reflexivity.
  all: digit_step.
  all: match goal with
       | H : Z.pos (Pos.of_uint_acc _ ?p) <= _
         |- context [digits _ ?z] =>
           assert (Hge := of_uint_acc_ge d p);
           replace z with (Z.pos p) by lia;
           destruct (Z.gtb_spec (Z.pos p) (2 ^ 64 - 1)); [lia|];
           apply IHd; exact H
       end.
Qed.

Lemma digits_uint0 (d : Decimal.uint) :
  Z.of_N (Pos.of_uint d) <= 2 ^ 64 - 1 ->
  digits (NilEmpty.string_of_uint d) 0 = inl (Z.of_N (Pos.of_uint d)).
Proof.
  induction d; intros Hmax;
    cbn [NilEmpty.string_of_uint digits Pos.of_uint] in *;
    try reflexivity.
  all: digit_step.
  1: exact (IHd Hmax).
  all: match goal with
       | H : Z.of_N (N.pos (Pos.of_uint_acc _ ?p)) <= _
         |- context [digits _ ?z] =>
           assert (Hge := of_uint_acc_ge d p);
           replace z with (Z.pos p) by lia;
           destruct (Z.gtb_spec (Z.pos p) (2 ^ 64 - 1)); [lia|];
           apply digits_uint; exact H
       end.
Qed.

Lemma digits_to_uint (p : positive) :
  Z.pos p <= 2 ^ 64 - 1 ->
  digits (NilZero.string_of_uint (Pos.to_uint p)) 0 = inl (Z.pos p) /\
  NilZero.string_of_uint (Pos.to_uint p) <> "".
Proof.
  intros Hmax.
  assert (Hnn := Unsigned.to_uint_nonnil p).
  assert (Hof := Unsigned.of_to p).
  assert (Hd := digits_uint0 (Pos.to_uint p)).
  rewrite Hof in Hd. specialize (Hd Hmax).
  destruct (Pos.to_uint p); try congruence; split; try exact Hd; discriminate.
Qed.

(** A string of digits only is read as its value, if that fits an [int]. *)
Lemma Atoi_digits (s : string) (v : Z) :
  s <> "" -> digits s 0 = inl v -> v <= 2 ^ 63 - 1 -> 0 <= v -> Atoi s = inl v.
Proof.
  intros Hs Hd Hv H0. destruct s as [|c s]; [congruence|].
  unfold Atoi.
  destruct (Ascii.eqb c "-" || Ascii.eqb c "+") eqn:Hsign.
  - apply digit_of_sign in Hsign. cbn [digits] in Hd. rewrite Hsign in Hd.
    discriminate.
  - apply orb_false_iff in Hsign as [-> _]. cbn [orb]. rewrite Hd.
    destruct (Z.leb_spec (- 2 ^ 63) v); [|lia].
    destruct (Z.leb_spec v (2 ^ 63 - 1)); [|lia]. reflexivity.
Qed.

Lemma Atoi_Itoa (n : Z) : is_int n -> Atoi (Itoa n) = inl n.
Proof.
  intros [Hlo Hhi]. unfold Itoa. destruct n as [|p|p]; cbn [Z.to_int NilZero.string_of_int].
  - reflexivity.
  - destruct (digits_to_uint p) as [Hd Hne]; [lia|].
    apply Atoi_digits; auto; lia.
  - destruct (digits_to_uint p) as [Hd Hne]; [lia|].
    unfold Atoi. cbn [Ascii.eqb Bool.eqb orb].
    destruct (NilZero.string_of_uint (Pos.to_uint p)) as [|c s] eqn:E; [congruence|].
    rewrite Hd.
    destruct (Z.leb_spec (- 2 ^ 63) (- Z.pos p)); [|lia].
    destruct (Z.leb_spec (- Z.pos p) (2 ^ 63 - 1)); [|lia]. reflexivity.
Qed.

Lemma Atoi_is_int (s : string) (n : Z) : Atoi s = inl n -> is_int n.
Proof.
  unfold Atoi, is_int. destruct s as [|c s]; [discriminate|].
  destruct (if Ascii.eqb c "-" || Ascii.eqb c "+" then s else String c s);
    [discriminate|].
  destruct (digits _ 0) as [v|e]; [|discriminate].
  set (w := if Ascii.eqb c "-" then - v else v).
  destruct (Z.leb_spec (- 2 ^ 63) w); [|discriminate].
  destruct (Z.leb_spec w (2 ^ 63 - 1)); [|discriminate].
  intros [= <-]. lia.
Qed.

(** The error kinds of [strconv.Atoi]: a value that leaves 64 bits before a
    character that is not a digit is met is a range error. *)
Example Atoi_error_kinds :
  Atoi "99999999999999999999x" = inr ErrRange /\
  Atoi "x99999999999999999999" = inr ErrSyntax /\
  Atoi "9999999999999999999x" = inr ErrSyntax /\
  Atoi "9223372036854775808" = inr ErrRange /\
  Atoi "-9223372036854775808" = inl (- 2 ^ 63) /\
  Atoi "+" = inr ErrSyntax /\ Atoi "" = inr ErrSyntax.
Proof. repeat split; reflexivity. Qed.

End StringFacts.

(* ================================================================== *)
(** * Proofs: the history buffer within its capacity *)
(* ================================================================== *)

Module HistoryReuse.
Import GoSlice GoSliceFacts History HistoryFacts.

Section Facts.
  Variable growslice : nat -> nat -> nat.

Lemma storeCalls_iter_reuses callCount k st call :
  1 <= callCount -> Z.of_nat k < callCount -> reusing callCount k st ->
  exists st', storeCalls_iter growslice callCount st call = Some st' /\
              reusing callCount (S k) st'.
Proof.
  intros HC Hk (Hh & Hrc & Hsb & Hemp & Hlen).
  destruct st as [h rc sb]; cbn [st_heap recordedCalls swapBuf] in *.
  unfold storeCalls_iter. cbn [st_heap recordedCalls swapBuf].
  unfold append at 1. rewrite Hemp, Hsb. cbn [length Nat.add].
  destruct (decide (1 <= Z.to_nat callCount)%nat) as [_|Hn]; [|lia].
  destruct (Z.geb_spec (Z.of_nat (s_len rc)) callCount) as [Hfull|_]; [lia|].
  cbn [mbind option_bind].
  set (h1 := <[s_arr sb := _]> h).
  unfold append. cbn [s_len s_cap s_arr s_off].
  assert (Hel : (length (elems h1 rc) <= s_len rc)%nat).
  { unfold elems. rewrite length_take. lia. }
  destruct (decide (1 + length (elems h1 rc) <= Z.to_nat callCount)%nat)
    as [_|Hn]; [|lia].
  rewrite reslice_empty. cbn [mbind option_bind].
  eexists. split; [reflexivity|].
  unfold reusing. cbn [st_heap recordedCalls swapBuf s_len s_cap].
  subst h1. rewrite !length_insert. repeat split; lia.
Qed.

Lemma storeCalls_loop_reuses callCount calls : forall k st,
  1 <= callCount -> Z.of_nat (k + length calls) <= callCount ->
  reusing callCount k st ->
  exists st', storeCalls_loop growslice callCount st calls = Some st' /\
              reusing callCount (k + length calls) st'.
Proof.
  induction calls as [|call rest IH]; intros k st HC Hk Hre; cbn [storeCalls_loop].
  - exists st. split; [reflexivity|]. cbn [length]. rewrite Nat.add_0_r. exact Hre.
  - cbn [length] in *.
    destruct (storeCalls_iter_reuses callCount k st call HC ltac:(lia) Hre)
      as (st1 & -> & Hre1).
    cbn [mbind option_bind].
    destruct (IH (S k) st1 HC ltac:(lia) Hre1) as (st2 & -> & Hre2).
    exists st2. split; [reflexivity|].
    replace (k + S (length rest))%nat with (S k + length rest)%nat by lia.
    exact Hre2.
Qed.

Lemma storeCalls_inv callCount calls :
  1 <= callCount ->
  exists st, storeCalls growslice callCount calls = Some st /\ inv st /\
             history st = rev calls.
Proof.
  intros HC. unfold storeCalls.
  destruct (start_inv callCount) as (st0 & -> & Hinv0 & Hh0); [lia|].
  simpl.
  destruct (storeCalls_loop_rev growslice callCount calls st0 HC Hinv0)
    as (st & -> & Hinv & Hh).
  exists st. split; [reflexivity|]. split; [exact Hinv|].
  rewrite Hh, Hh0, app_nil_r. reflexivity.
Qed.

End Facts.
End HistoryReuse.

(* ================================================================== *)
(** * Proofs: the size of a digest *)
(* ================================================================== *)

Module DigestFacts.
Import Sha256 Sha256Facts.

Lemma length_round v kw : length (round v kw) = length v.
Proof.
  unfold round.
  do 9 (destruct v as [|? v]; [reflexivity|]). reflexivity.
Qed.

Lemma length_rounds kws : forall v, length (fold_left round kws v) = length v.
Proof.
  induction kws as [|kw kws IH]; intros v; [reflexivity|].
  cbn [fold_left]. rewrite IH. apply length_round.
Qed.

Lemma length_compress h p : length (compress h p) = length h.
Proof.
  unfold compress. rewrite length_map, List.length_combine, length_rounds. lia.
Qed.

Lemma length_blockLoop fuel : forall h p, length (blockLoop fuel h p) = length h.
Proof.
  induction fuel as [|fuel IH]; intros h p; [reflexivity|].
  cbn [blockLoop]. destruct (decide _); [|reflexivity].
  rewrite IH. apply length_compress.
Qed.

Lemma length_block h p : length (block h p) = length h.
Proof. apply length_blockLoop. Qed.

(** [Write] keeps the eight words of the state. *)
Lemma length_Write d p : length (d_h (Write d p)) = length (d_h d).
Proof.
  unfold Write.
  destruct (decide (0 < length (d_x d))%nat);
    [destruct (decide (length (d_x d ++ take _ p) = chunk))|];
    match goal with
    | |- context [decide (chunk <= length ?q)%nat] =>
        destruct (decide (chunk <= length q)%nat)
    end; cbn [d_h]; rewrite ?length_block; reflexivity.
Qed.

Lemma length_words (ws : list Z) :
  length (concat (map BEPutUint32 ws)) = (4 * length ws)%nat.
Proof.
  induction ws as [|w ws IH]; [reflexivity|].
  cbn [map concat]. rewrite length_app, IH.
  unfold BEPutUint32. rewrite length_map, length_seq. cbn [length]. lia.
Qed.

Lemma length_checkSum d : length (d_h d) = 8%nat -> length (checkSum d) = 32%nat.
Proof.
  intros Hd. unfold checkSum. rewrite length_words, length_Write, Hd. reflexivity.
Qed.

(** A SHA-256 digest has 32 bytes. *)
Lemma length_Sum256 data : length (Sum256 data) = 32%nat.
Proof. unfold Sum256. apply length_checkSum. rewrite length_Write. reflexivity. Qed.

Lemma length_EncodeToString src :
  String.length (EncodeToString src) = (2 * length src)%nat.
Proof.
  induction src as [|v src IH]; [reflexivity|].
  cbn [EncodeToString String.length length]. rewrite IH. lia.
Qed.

End DigestFacts.

(* ================================================================== *)
(** * Proofs: the handler on every request *)
(* ================================================================== *)

Module ServeFacts.
Import Handler ReadFacts HandlerFacts Sha256Facts DigestFacts StringFacts.

Lemma wrap64_small z : is_int z -> wrap64 z = z.
Proof.
  unfold is_int, wrap64. intros Hz.
  rewrite Z.mod_small by lia. lia.
Qed.

Lemma string_app_nil_r (s : string) : s +:+ "" = s.
Proof.
  induction s as [|c s IH]; [reflexivity|].
  change (String c s +:+ "") with (String c (s +:+ "")). rewrite IH. reflexivity.
Qed.

Lemma string_app_assoc (s t u : string) : (s +:+ t) +:+ u = s +:+ (t +:+ u).
Proof.
  induction s as [|c s IH]; [reflexivity|].
  change ((String c s +:+ t) +:+ u) with (String c ((s +:+ t) +:+ u)).
  rewrite IH. reflexivity.
Qed.

(** Splits a conjunction and closes the parts that are plain. *)
Ltac leaves :=
  repeat match goal with |- _ /\ _ => split end;
  try solve [intuition (congruence || lia || auto)].

Section Routes.
  Variable buffer_grow : nat -> nat -> nat.
  Variable env : Env.

(** The streaming loop keeps the eight words of the digest state. *)
Lemma streamLoop_shape fuel : forall b justRead readErr bytesRead hasher g o d,
  (mu b < fuel)%nat -> length (Sha256.d_h hasher) = 8%nat ->
  exists br e h' b',
    streamLoop fuel justRead readErr bytesRead hasher (MkState g o b d)
    = Ok ((br, e, h'), MkState g o b' d) /\
    length (Sha256.d_h h') = 8%nat.
Proof.
  induction fuel as [|fuel IH]; intros b jr e br h g o d Hfuel Hh; [lia|].
  cbn [streamLoop].
  destruct ((0 <? Z.of_nat (length jr)) && bool_decide (e = None)) eqn:Hcond.
  - run. destruct (Read b bufSize) as [[data e'] b'] eqn:HR.
    destruct (Read_spec _ _ _ _ _ bufSize_pos HR)
      as (_ & _ & _ & Herr & Hmu & _).
    destruct Herr as [-> | [-> Hend]].
    + apply IH; [specialize (Hmu eq_refl); lia|].
      rewrite length_Write. exact Hh.
    + destruct fuel; cbn [streamLoop];
        rewrite bool_decide_eq_false_2, andb_false_r by discriminate;
        run; do 4 eexists; (split; [reflexivity|]);
        rewrite length_Write; exact Hh.
  - run. do 4 eexists. split; [reflexivity | exact Hh].
Qed.

(** The streaming branch for any body: no payload, and either a whole
    digest or, with the failure reported, none. *)
Lemma digestStreaming_shape b g o d :
  exists bytesRead rawHash o' b',
    digestStreaming (MkState g o b d)
    = Ok ((bytesRead, rawHash, []), MkState g o' b' d) /\
    ((o' = o /\ length rawHash = 32%nat) \/
     (exists e, o' = failed e o /\ rawHash = [])).
Proof.
  unfold digestStreaming. run.
  destruct (Read b bufSize) as [[data e] b'] eqn:HR.
  destruct (Read_spec _ _ _ _ _ bufSize_pos HR)
    as (_ & _ & _ & _ & Hmu & _).
  assert (Hfuel : (mu b' < body_fuel b)%nat).
  { rewrite body_fuel_mu. destruct e as [e|].
    - unfold Read in HR. destruct (segments b) as [|seg more] eqn:Hs.
      + injection HR as _ _ <-. lia.
      + destruct (decide _); [|discriminate].
        destruct more; [|discriminate].
        destruct (eager b); [|discriminate].
        injection HR as _ _ <-. unfold mu, content. simpl. lia.
    - specialize (Hmu eq_refl). lia. }
  destruct (streamLoop_shape (body_fuel b) b' data e
              (add64 0 (Z.of_nat (length data)))
              (Sha256.Write Sha256.New data) g o d Hfuel)
    as (br & e' & h & b'' & -> & Hh).
  { rewrite length_Write. reflexivity. }
  destruct e' as [e'|]; [destruct (Is_EOF e') eqn:Heof|]; run;
    do 4 eexists; (split; [reflexivity|]).
  - left. split; [reflexivity|]. apply length_checkSum. exact Hh.
  - right. eexists. split; reflexivity.
  - left. split; [reflexivity|]. apply length_checkSum. exact Hh.
Qed.

(** The body stage of the capture path, for any body. *)
Lemma consumeBody_shape b g o d :
  exists bytesRead rawHash payload o' b',
    consumeBody buffer_grow g (MkState g o b d)
    = Ok ((bytesRead, rawHash, payload), MkState g o' b' d) /\
    ((o' = o /\ length rawHash = 32%nat) \/
     (exists e, o' = failed e o /\
        (length rawHash = 32%nat \/
         (rawHash = [] /\ bufferRequest g || storePayload g = false)))) /\
    (bufferRequest g || storePayload g = false -> payload = []).
Proof.
  unfold consumeBody. destruct (bufferRequest g || storePayload g).
  - rewrite digestBuffered_spec. do 5 eexists. split; [reflexivity|].
    split; [|discriminate].
    destruct (reported b); [right; eexists|left];
      (split; [reflexivity|]); try left; apply length_Sum256.
  - destruct (digestStreaming_shape b g o d)
      as (br & h & o' & b' & -> & Ho).
    do 5 eexists. split; [reflexivity|]. split; [|reflexivity].
    destruct Ho as [[-> Hl] | (e & -> & ->)]; [left | right]; eauto.
Qed.

(** [chaos] as a function of the policy and the draws. *)
Lemma chaos_exact g o b d :
  chaos env (MkState g o b d)
  = Ok (tt, MkState g (MkOutput (status o) (wrote o) (stderr o) (sent o)
                                (slept o ++ (stall env g d).1))
                    b (stall env g d).2).
Proof.
  unfold chaos, stall. run.
  destruct (Z.gtb_spec (chance g) 0) as [Hpos|Hnon].
  - unfold Intn at 1. cbn [draws Z.leb Z.compare]. run.
    destruct (Z.geb_spec (chance g) (random env d mod 100)) as [Hge|Hlt].
    + destruct (Z.gtb_spec (variance g) 0) as [Hv|Hv].
      * unfold Intn. destruct (Z.leb_spec (variance g) 0); [lia|].
        run. unfold Sleep. run. reflexivity.
      * run. unfold Sleep. run. reflexivity.
    + run. cbn [fst snd]. rewrite app_nil_r. destruct o; reflexivity.
  - run. cbn [fst snd]. rewrite app_nil_r. destruct o; reflexivity.
Qed.

Lemma capture_run_exact g req o b d br hash payload o1 b1 :
  consumeBody buffer_grow g (MkState g o b d)
  = Ok ((br, hash, payload), MkState g o1 b1 d) ->
  capture buffer_grow env req (MkState g o b d)
  = Ok (tt, MkState g
         (MkOutput (Some (statusCode o1))
            (wrote o1 +:+ ((URL_Path req +:+ " received") +:+ nl))
            (stderr o1)
            (sent o1 ++ [RequestRecord (Now env) (req_Method req)
                           (URL_RequestURI req) br (EncodeToString hash)
                           (string_of_list_byte payload)])
            (slept o1 ++ (stall env g d).1)) b1 (stall env g d).2).
Proof.
  intros Hbody. unfold capture. run. rewrite Hbody.
  unfold send, Fprintln_resp, respWrite. run.
  rewrite chaos_exact. reflexivity.
Qed.

(** The capture path for any body. *)
Lemma capture_shape g req :
  captured env g req = true ->
  exists br hash payload o1 b1,
    serve buffer_grow env g req
    = Ok (tt, MkState g
           (MkOutput (Some (statusCode o1))
              (wrote o1 +:+ ((URL_Path req +:+ " received") +:+ nl))
              (stderr o1)
              [RequestRecord (Now env) (req_Method req) (URL_RequestURI req)
                 br (EncodeToString hash) (string_of_list_byte payload)]
              (stall env g 0).1) b1 (stall env g 0).2) /\
    ((o1 = no_output /\ length hash = 32%nat) \/
     (exists e, o1 = failed e no_output /\
        (length hash = 32%nat \/
         (hash = [] /\ bufferRequest g || storePayload g = false)))) /\
    (bufferRequest g || storePayload g = false -> payload = []).
Proof.
  intros Hcap. unfold serve.
  rewrite (captured_route buffer_grow env g) by (reflexivity || exact Hcap).
  destruct (consumeBody_shape (req_Body req) g no_output 0)
    as (br & hash & payload & o1 & b1 & Hbody & Ho1 & Hpay).
  rewrite (capture_run_exact g req _ _ _ _ _ _ _ _ Hbody).
  exists br, hash, payload, o1, b1.
  split; [|auto].
  destruct Ho1 as [[-> _] | (e & -> & _)]; reflexivity.
Qed.

(** The capture path in closed form, for a body that is buffered or read
    under the reader contract. *)
Lemma capture_exact g req :
  captured env g req = true ->
  bufferRequest g || storePayload g = true \/ no_empty_read (req_Body req) ->
  let b := req_Body req in
  let buffered := bufferRequest g || storePayload g in
  let o1 := if buffered
            then match reported b with Some e => failed e no_output
                                     | None => no_output end
            else if Is_EOF (final b) then no_output
                 else failed (final b) no_output in
  serve buffer_grow env g req
  = Ok (tt, MkState g
         (MkOutput (Some (statusCode o1))
            (wrote o1 +:+ ((URL_Path req +:+ " received") +:+ nl))
            (stderr o1)
            [RequestRecord (Now env) (req_Method req) (URL_RequestURI req)
               (add64 0 (Z.of_nat (length (content b))))
               (EncodeToString
                  (if buffered then Sha256.Sum256 (content b)
                   else if Is_EOF (final b)
                        then Sha256.Sum (Sha256.Write Sha256.New (content b))
                        else []))
               (string_of_list_byte (if buffered then content b else []))]
            (stall env g 0).1) (drained b) (stall env g 0).2).
Proof.
  intros Hcap Hne b buffered o1. unfold serve. fold b.
  rewrite (captured_route buffer_grow env g) by (reflexivity || exact Hcap).
  assert (Hbody : consumeBody buffer_grow g (MkState g no_output b 0)
    = Ok ((add64 0 (Z.of_nat (length (content b))),
           (if buffered then Sha256.Sum256 (content b)
            else if Is_EOF (final b)
                 then Sha256.Sum (Sha256.Write Sha256.New (content b))
                 else []),
           (if buffered then content b else [])),
          MkState g o1 (drained b) 0)).
  { unfold consumeBody, o1, buffered.
    destruct (bufferRequest g || storePayload g).
    - apply digestBuffered_spec.
    - apply digestStreaming_spec. destruct Hne; [discriminate | assumption]. }
  rewrite (capture_run_exact g req _ _ _ _ _ _ _ _ Hbody).
  f_equal. f_equal. f_equal.
  unfold o1. destruct buffered; [destruct (reported b)|destruct (Is_EOF (final b))];
    reflexivity.
Qed.

(** The inspection loop in closed form. *)
Lemma printCalls_exact calls : forall g o b d,
  printCalls calls (MkState g o b d)
  = Ok (tt, MkState g
         (MkOutput (match calls with
                    | [] => status o
                    | _ => Some (statusCode o)
                    end)
                   (wrote o +:+ listing calls) (stderr o) (sent o) (slept o))
         b d).
Proof.
  induction calls as [|call rest IH]; intros g o b d; cbn [printCalls listing fold_right].
  - run. rewrite string_app_nil_r. destruct o; reflexivity.
  - unfold Fprintln_resp, respWrite. run. rewrite IH.
    cbn [status wrote stderr sent slept]. rewrite string_app_assoc.
    destruct rest; reflexivity.
Qed.

(** The inspection route: the admitted requests whose path has the
    keyword; "/favicon.ico" does not have it. *)
Lemma inspected_route g req s :
  globals s = g -> overLimit env g = false ->
  Contains (URL_Path req) "recordedRequests" = true ->
  recordRequest buffer_grow env req s = inspect s.
Proof.
  intros <- Hover Hins. unfold recordRequest. run.
  fold (overLimit env (globals s)). rewrite Hover.
  destruct (String.eqb_spec (URL_Path req) "/favicon.ico") as [Hfav|_].
  - rewrite Hfav in Hins. vm_compute in Hins. discriminate.
  - rewrite Hins. reflexivity.
Qed.

Lemma inspect_exact g o b d :
  inspect (MkState g o b d)
  = Ok (tt, MkState g
         (MkOutput (match recordedCalls g with
                    | [] => status o
                    | _ => Some (statusCode o)
                    end)
                   (wrote o +:+ listing (recordedCalls g))
                   (stderr o) (sent o) (slept o))
         b d).
Proof. unfold inspect. run. apply printCalls_exact. Qed.

Lemma setFromQueryParam_int param old :
  is_int old -> is_int (setFromQueryParam param old).1.
Proof.
  intros Hold. unfold setFromQueryParam.
  destruct (negb (String.eqb "" param)); [|exact Hold].
  destruct (Atoi param) as [n|e] eqn:E; [|exact Hold].
  exact (Atoi_is_int _ _ E).
Qed.

Lemma serve_shape g req :
  exists s,
    serve buffer_grow env g req = Ok (tt, s) /\
    (statusCode (output s) = 503 <-> overLimit env g = true) /\
    (statusCode (output s) = 404 <->
     overLimit env g = false /\ URL_Path req = "/favicon.ico") /\
    (statusCode (output s) = 200 \/ statusCode (output s) = 404 \/
     statusCode (output s) = 500 \/ statusCode (output s) = 503) /\
    (statusCode (output s) = 500 -> captured env g req = true) /\
    (captured env g req = false -> quiet req s) /\
    (configured env g req = false -> globals s = g) /\
    bufferRequest (globals s) = bufferRequest g /\
    storePayload (globals s) = storePayload g /\
    recordedCalls (globals s) = recordedCalls g /\
    (ints g -> ints (globals s)).
Proof.
  unfold serve, recordRequest, captured, configured, quiet. run.
  fold (overLimit env g).
  destruct (overLimit env g) eqn:Hover.
  - eexists. split; [reflexivity|]. cbn. leaves.
  - destruct (String.eqb_spec (URL_Path req) "/favicon.ico") as [Hfav|Hfav].
    + eexists. split; [reflexivity|]. cbn. leaves.
    + destruct (Contains (URL_Path req) "recordedRequests") eqn:Hins.
      * rewrite inspect_exact.
        eexists. split; [reflexivity|].
        destruct (recordedCalls g) eqn:Hcalls; cbn; rewrite ?Hcalls; leaves.
      * destruct (Contains (URL_Path req) "configDelay") eqn:Hconf.
        -- rewrite configure_run. cbv zeta.
           eexists. split; [reflexivity|]. cbn. leaves.
           intros (? & ? & ? & ?).
           repeat split; apply setFromQueryParam_int; assumption.
        -- destruct (consumeBody_shape (req_Body req) g no_output 0)
             as (br & hash & payload & o1 & b1 & Hbody & Ho1 & Hpay).
           rewrite (capture_run_exact g req _ _ _ _ _ _ _ _ Hbody).
           eexists. split; [reflexivity|].
           destruct Ho1 as [[-> _] | (e & -> & _)]; cbn; leaves.
Qed.

End Routes.
End ServeFacts.

(* ================================================================== *)
(** * Further properties of the code *)
(* ================================================================== *)

Module Properties.
Import GoSlice History HistoryFacts HistoryReuse.
Import Handler ReadFacts HandlerFacts Sha256Facts DigestFacts StringFacts ServeFacts.
Import Samples MoreSamples.

(** ** storeCalls *)

(** X1.  With a capacity of zero or less the consumer panics: a negative
    capacity already in [make], a capacity of zero on the first record it
    receives, in the slice expression [existingCalls[1:callCount]]. *)
Theorem storeCalls_panics_without_capacity growslice callCount call rest :
  callCount <= 0 ->
  storeCalls growslice callCount (call :: rest) = None.
Proof.
  intros HC. unfold storeCalls, start, make.
  destruct (Z.ltb_spec callCount 0) as [|Hz]; [reflexivity|].
  assert (callCount = 0) by lia. subst callCount.
  cbn [mbind option_bind Z.to_nat replicate length app storeCalls_loop].
  unfold storeCalls_iter. cbn [st_heap History.recordedCalls swapBuf].
  destruct (append zeroRecord growslice _ _ [call]) as [h1 sb1].
  reflexivity.
Qed.

Lemma storeCalls_panics_without_capacity_witness :
  storeCalls growslice_double 0 [rec_named "A"] = None.
Proof.
  apply (storeCalls_panics_without_capacity growslice_double 0 (rec_named "A") []).
  lia.
Defined.

(** X2.  For every capacity of at least one, every reallocation policy of
    [append] and every sequence of records, the consumer does not panic and
    the buffer it leaves is the whole sequence, newest first: as long as
    the sequence, whatever the capacity. *)
Theorem storeCalls_holds_every_record growslice callCount calls :
  1 <= callCount ->
  exists st, storeCalls growslice callCount calls = Some st /\
             history st = rev calls /\
             length (history st) = length calls.
Proof.
  intros HC.
  destruct (storeCalls_inv growslice callCount calls HC) as (st & Hst & _ & Hh).
  exists st. split; [exact Hst|]. split; [exact Hh|].
  rewrite Hh. apply length_rev.
Qed.

Lemma storeCalls_holds_every_record_witness :
  exists st, storeCalls growslice_double 2
               [rec_named "A"; rec_named "B"; rec_named "C"] = Some st /\
             history st = rev [rec_named "A"; rec_named "B"; rec_named "C"] /\
             length (history st)
             = length [rec_named "A"; rec_named "B"; rec_named "C"].
Proof.
  apply (storeCalls_holds_every_record growslice_double 2
           [rec_named "A"; rec_named "B"; rec_named "C"]).
  lia.
Defined.

(** X3.  The double buffering never aliases: after any number of records
    [recordedCalls] and [swapBuf] lie in different backing arrays, inside
    them, and [swapBuf] is empty, so the [append]s of the next iteration
    cannot overwrite the records that are being copied. *)
Theorem storeCalls_keeps_buffers_apart growslice callCount calls :
  1 <= callCount ->
  exists st, storeCalls growslice callCount calls = Some st /\
             s_arr (History.recordedCalls st) <> s_arr (swapBuf st) /\
             elems (st_heap st) (swapBuf st) = [] /\
             wf (st_heap st) (History.recordedCalls st) /\
             wf (st_heap st) (swapBuf st).
Proof.
  intros HC.
  destruct (storeCalls_inv growslice callCount calls HC)
    as (st & Hst & [Hrc Hsb Hne Hemp] & _).
  exists st. split; [exact Hst|].
  split; [exact Hne|]. split; [|auto].
  unfold elems. rewrite Hemp. reflexivity.
Qed.

Lemma storeCalls_keeps_buffers_apart_witness :
  exists st, storeCalls growslice_double 1 [rec_named "A"; rec_named "B"] = Some st /\
             s_arr (History.recordedCalls st) <> s_arr (swapBuf st) /\
             elems (st_heap st) (swapBuf st) = [] /\
             wf (st_heap st) (History.recordedCalls st) /\
             wf (st_heap st) (swapBuf st).
Proof.
  apply (storeCalls_keeps_buffers_apart growslice_double 1
           [rec_named "A"; rec_named "B"]).
  lia.
Defined.

(** X4.  While no more records than the capacity have been drained, the
    consumer allocates nothing: the heap still holds the two arrays made at
    start, and both slices keep the full capacity (the "without
    reallocating" of the code's comments). *)
Theorem storeCalls_reuses_its_arrays growslice callCount calls :
  1 <= callCount -> Z.of_nat (length calls) <= callCount ->
  exists st, storeCalls growslice callCount calls = Some st /\
             length (st_heap st) = 2%nat /\
             s_cap (History.recordedCalls st) = Z.to_nat callCount /\
             s_cap (swapBuf st) = Z.to_nat callCount.
Proof.
  intros HC HN. unfold storeCalls, start, make.
  destruct (Z.ltb_spec callCount 0) as [|_]; [lia|].
  cbn [mbind option_bind].
  destruct (storeCalls_loop_reuses growslice callCount calls 0
              (Store ([] ++ [replicate (Z.to_nat callCount) zeroRecord]
                         ++ [replicate (Z.to_nat callCount) zeroRecord])
                     (Slice 0 0 0 (Z.to_nat callCount))
                     (Slice 1 0 0 (Z.to_nat callCount))) HC)
    as (st & Hst & Hh & Hrc & Hsb & _).
  - simpl. lia.
  - unfold reusing. simpl. repeat split; lia.
  - exists st. split; [|auto]. rewrite <- Hst. reflexivity.
Qed.

Lemma storeCalls_reuses_its_arrays_witness :
  exists st, storeCalls growslice_double 2 [rec_named "A"; rec_named "B"] = Some st /\
             length (st_heap st) = 2%nat /\
             s_cap (History.recordedCalls st) = Z.to_nat 2 /\
             s_cap (swapBuf st) = Z.to_nat 2.
Proof.
  apply (storeCalls_reuses_its_arrays growslice_double 2
           [rec_named "A"; rec_named "B"]); simpl; lia.
Defined.

(** ** The special paths *)

(** X5.  An admitted request whose path contains "recordedRequests" is
    answered with the records held, each rendered by [String()] on a line
    of its own, in the order of the buffer (status 200, implicit when
    something is written); the policy is as before, the body is unread,
    nothing is sent, slept or logged. *)
Theorem inspection_lists_history buffer_grow env g req :
  overLimit env g = false ->
  Contains (URL_Path req) "recordedRequests" = true ->
  serve buffer_grow env g req
  = Ok (tt, MkState g
         (MkOutput (match Handler.recordedCalls g with
                    | [] => None
                    | _ => Some 200
                    end)
                   (listing (Handler.recordedCalls g)) "" [] [])
         (req_Body req) 0).
Proof.
  intros Hover Hins. unfold serve.
  rewrite (inspected_route buffer_grow env g) by (reflexivity || assumption).
  rewrite inspect_exact. destruct (Handler.recordedCalls g); reflexivity.
Qed.

Lemma inspection_lists_history_witness :
  serve buffer_double env0 held (post "/recordedRequests" hello)
  = Ok (tt, MkState held
         (MkOutput (match Handler.recordedCalls held with
                    | [] => None
                    | _ => Some 200
                    end)
                   (listing (Handler.recordedCalls held)) "" [] [])
         (req_Body (post "/recordedRequests" hello)) 0).
Proof.
  apply (inspection_lists_history buffer_double env0 held
           (post "/recordedRequests" hello)); reflexivity.
Defined.

Lemma keyword_not_favicon (path kw : string) :
  Contains "/favicon.ico" kw = false -> Contains path kw = true ->
  path <> "/favicon.ico".
Proof. intros Hf Hc ->. congruence. Qed.

(** X6.  The keywords match anywhere in the path: an admitted request
    whose path has "recordedRequests" or "configDelay" as a substring is
    answered 200 by a special path, with the body unread and no record
    sent; and when the path has "recordedRequests", inspection wins over
    configuration: the policy is unchanged whatever the query says. *)
Theorem keyword_paths_are_swallowed buffer_grow env g req pre post :
  overLimit env g = false ->
  URL_Path req = pre +:+ ("recordedRequests" +:+ post) \/
  URL_Path req = pre +:+ ("configDelay" +:+ post) ->
  exists s,
    serve buffer_grow env g req = Ok (tt, s) /\
    statusCode (output s) = 200 /\
    sent (output s) = [] /\ body s = req_Body req /\
    (URL_Path req = pre +:+ ("recordedRequests" +:+ post) -> globals s = g).
Proof.
  intros Hover Hpath.
  destruct (serve_shape buffer_grow env g req)
    as (s & Hs & H503 & H404 & Hst & H500 & Hquiet & Hglob & _).
  assert (Hkw : Contains (URL_Path req) "recordedRequests" = true \/
                Contains (URL_Path req) "configDelay" = true).
  { destruct Hpath as [Hp|Hp]; [left|right];
      apply Contains_substring; eauto. }
  assert (Hfav : URL_Path req <> "/favicon.ico").
  { destruct Hkw as [Hk|Hk];
      [exact (keyword_not_favicon _ "recordedRequests" eq_refl Hk)
      |exact (keyword_not_favicon _ "configDelay" eq_refl Hk)]. }
  assert (Hcap : captured env g req = false).
  { unfold captured. destruct Hkw as [-> | ->];
      rewrite ?andb_false_r; reflexivity. }
  destruct (Hquiet Hcap) as (Hb & _ & Hsent & _).
  exists s. split; [exact Hs|].
  split.
  { destruct Hst as [?|[H4|[H5|H3]]]; [assumption| | |].
    - apply H404 in H4. tauto.
    - apply H500 in H5. congruence.
    - apply H503 in H3. congruence. }
  split; [exact Hsent|]. split; [exact Hb|].
  intros Hp. apply Hglob. unfold configured.
  assert (Hc : Contains (URL_Path req) "recordedRequests" = true)
    by (apply Contains_substring; eauto).
  rewrite Hc, ?andb_false_r. reflexivity.
Qed.

Lemma keyword_paths_are_swallowed_witness :
  exists s,
    serve buffer_double env0 streaming both_keywords = Ok (tt, s) /\
    statusCode (output s) = 200 /\
    sent (output s) = [] /\ body s = req_Body both_keywords /\
    (URL_Path both_keywords = "/configDelay/" +:+ ("recordedRequests" +:+ "")
     -> globals s = streaming).
Proof.
  apply (keyword_paths_are_swallowed buffer_double env0 streaming both_keywords
           "/configDelay/" "").
  - reflexivity.
  - left. reflexivity.
Defined.

(** ** setFromQueryParam *)

(** X7.  Round trip: the decimal text that [strconv.Itoa] (and the [%d] of
    the configuration echo) prints for an [int] is read back by
    [setFromQueryParam] as that same number, without error, whatever the
    target held. *)
Theorem setFromQueryParam_round_trip n old :
  is_int n -> setFromQueryParam (Itoa n) old = (n, None).
Proof.
  intros Hn. assert (Ha := Atoi_Itoa n Hn). unfold setFromQueryParam.
  destruct (String.eqb_spec "" (Itoa n)) as [He|_].
  - rewrite <- He in Ha. discriminate.
  - cbn [negb]. rewrite Ha. reflexivity.
Qed.

Lemma setFromQueryParam_round_trip_witness :
  setFromQueryParam (Itoa (-250)) 7 = (-250, None).
Proof.
  apply (setFromQueryParam_round_trip (-250) 7). unfold is_int. lia.
Defined.

(** X8.  The three outcomes of [setFromQueryParam]: an error is returned
    only for a parameter that is not empty and does not parse, and then the
    target is untouched; without an error either the parameter was empty
    and the target is untouched, or the target holds the parsed number,
    which fits an [int]. *)
Theorem setFromQueryParam_outcome param old :
  match (setFromQueryParam param old).2 with
  | Some e =>
      (setFromQueryParam param old).1 = old /\ Atoi param = inr e /\ param <> ""
  | None =>
      (param = "" /\ (setFromQueryParam param old).1 = old) \/
      (Atoi param = inl (setFromQueryParam param old).1 /\
       is_int (setFromQueryParam param old).1)
  end.
Proof.
  unfold setFromQueryParam.
  destruct (String.eqb_spec "" param) as [<-|Hne]; cbn [negb].
  - left. split; reflexivity.
  - destruct (Atoi param) as [n|e] eqn:E; cbn [fst snd].
    + right. split; [reflexivity|]. exact (Atoi_is_int _ _ E).
    + split; [reflexivity|]. split; [reflexivity|]. congruence.
Qed.

(** ** recordRequest on every request *)

(** X9.  The policy numbers stay [int]s: if the limit, delay, variance and
    chance fit 64 bits before a request, they do after it, whatever the
    request and its query are (a value that does not fit is refused by
    [strconv.Atoi] and the field keeps its value). *)
Theorem policy_stays_int buffer_grow env g req :
  ints g ->
  exists s, serve buffer_grow env g req = Ok (tt, s) /\ ints (globals s).
Proof.
  intros Hg.
  destruct (serve_shape buffer_grow env g req)
    as (s & Hs & _ & _ & _ & _ & _ & _ & _ & _ & _ & Hints).
  exists s. auto.
Qed.

Lemma policy_stays_int_witness :
  exists s, serve buffer_double env0 streaming mixed_config = Ok (tt, s) /\
            ints (globals s).
Proof.
  apply (policy_stays_int buffer_double env0 streaming mixed_config).
  unfold ints, is_int. simpl. lia.
Defined.

(** X10.  On the capture path the handler sleeps at most once, and it
    sleeps exactly when [chance] is positive and the first number drawn
    below 100 is at most [chance] ([chance >= random.Intn(100)]); so from
    [chance = 99] on every captured request stalls. *)
Theorem stall_exactly_when buffer_grow env g req :
  captured env g req = true ->
  exists s,
    serve buffer_grow env g req = Ok (tt, s) /\
    (length (slept (output s)) <= 1)%nat /\
    (slept (output s) <> [] <->
     0 < chance g /\ random env 0 mod 100 <= chance g) /\
    (99 <= chance g -> slept (output s) <> []).
Proof.
  intros Hcap.
  destruct (capture_shape buffer_grow env g req Hcap)
    as (br & hash & payload & o1 & b1 & Hs & _).
  eexists. split; [exact Hs|]. cbn [output slept].
  assert (Hdraw : 0 <= random env 0 mod 100 < 100)
    by (apply Z.mod_pos_bound; lia).
  unfold stall.
  destruct (Z.gtb_spec (chance g) 0) as [Hpos|Hnon];
    [destruct (Z.geb_spec (chance g) (random env 0 mod 100)) as [Hge|Hlt];
     [destruct (variance g >? 0)|]|];
    cbn [fst length]; (split; [lia|]); (split; [split|]);
    intros; try congruence; try lia.
Qed.

Lemma stall_exactly_when_witness :
  exists s,
    serve buffer_double env0 often (post "/upload" hello) = Ok (tt, s) /\
    (length (slept (output s)) <= 1)%nat /\
    (slept (output s) <> [] <->
     0 < chance often /\ random env0 0 mod 100 <= chance often) /\
    (99 <= chance often -> slept (output s) <> []).
Proof.
  apply (stall_exactly_when buffer_double env0 often (post "/upload" hello)).
  reflexivity.
Defined.

(** X11.  When the handler sleeps, it sleeps for [delay] milliseconds give
    or take half the [variance]: between [delay - variance/2] and
    [delay + variance/2] milliseconds, in nanoseconds, for a delay and a
    variance small enough not to overflow (here up to 2^31 ms). *)
Theorem stall_duration_bounds buffer_grow env g req :
  captured env g req = true ->
  - 2 ^ 31 <= delay g <= 2 ^ 31 -> 0 <= variance g <= 2 ^ 31 ->
  exists s,
    serve buffer_grow env g req = Ok (tt, s) /\
    forall dur, In dur (slept (output s)) ->
      (delay g - variance g / 2) * 1000000 <= dur
      <= (delay g + variance g / 2) * 1000000.
Proof.
  intros Hcap Hd Hv.
  destruct (capture_shape buffer_grow env g req Hcap)
    as (br & hash & payload & o1 & b1 & Hs & _).
  eexists. split; [exact Hs|]. cbn [output slept].
  intros dur. unfold stall.
  destruct (chance g >? 0); [|intros []].
  destruct (chance g >=? random env 0 mod 100); [|intros []].
  destruct (Z.gtb_spec (variance g) 0) as [Hpos|Hnon];
    cbn [fst]; intros [<-|[]].
  - assert (Hr : 0 <= random env 1 mod variance g < variance g)
      by (apply Z.mod_pos_bound; lia).
    rewrite Z.quot_div_nonneg by lia.
    assert (Hq : 0 <= variance g / 2 /\ variance g <= 2 * (variance g / 2) + 1
                 /\ 2 * (variance g / 2) <= variance g)
      by (Z.div_mod_to_equations; lia).
    unfold mul64, add64, sub64.
    rewrite (wrap64_small (_ - _)) by (unfold is_int; lia).
    rewrite (wrap64_small (_ + _)) by (unfold is_int; lia).
    rewrite wrap64_small by (unfold is_int; lia).
    lia.
  - assert (variance g = 0) by lia.
    unfold mul64, add64.
    rewrite (wrap64_small (_ + _)) by (unfold is_int; lia).
    rewrite wrap64_small by (unfold is_int; lia).
    replace (variance g) with 0 by lia. change (0 / 2) with 0. lia.
Qed.

Lemma stall_duration_bounds_witness :
  exists s,
    serve buffer_double env0 often (post "/upload" hello) = Ok (tt, s) /\
    forall dur, In dur (slept (output s)) ->
      (delay often - variance often / 2) * 1000000 <= dur
      <= (delay often + variance often / 2) * 1000000.
Proof.
  apply (stall_duration_bounds buffer_double env0 often (post "/upload" hello)).
  - reflexivity.
  - simpl. lia.
  - simpl. lia.
Defined.

(** X12.  The answer is 503 exactly when the limit is positive and the
    goroutine count is strictly above it: a count equal to the limit is
    admitted. *)
Theorem rejected_exactly_when_over_limit buffer_grow env g req :
  exists s,
    serve buffer_grow env g req = Ok (tt, s) /\
    (statusCode (output s) = 503 <->
     0 < goroutinelimit g /\ goroutinelimit g < NumGoroutine env).
Proof.
  destruct (serve_shape buffer_grow env g req) as (s & Hs & H503 & _).
  exists s. split; [exact Hs|]. rewrite H503. unfold overLimit.
  destruct (Z.gtb_spec (goroutinelimit g) 0);
    destruct (Z.gtb_spec (NumGoroutine env) (goroutinelimit g));
    cbn [andb]; split; intros; try congruence; try lia.
Qed.

(** X13.  The handler returns on every request, for every policy and every
    body that comes to an end: it never panics ([random.Intn] is only
    called with a positive bound) and its read loops end; the status is one
    of 200, 404, 500 and 503, and 500 is only answered on the capture
    path. *)
Theorem every_request_is_answered buffer_grow env g req :
  exists s,
    serve buffer_grow env g req = Ok (tt, s) /\
    (statusCode (output s) = 200 \/ statusCode (output s) = 404 \/
     statusCode (output s) = 500 \/ statusCode (output s) = 503) /\
    (statusCode (output s) = 500 -> captured env g req = true).
Proof.
  destruct (serve_shape buffer_grow env g req)
    as (s & Hs & _ & _ & Hst & H500 & _).
  exists s. auto.
Qed.

(** X14.  A request that does not reach the capture path (rejected,
    favicon, inspection, configuration) leaves the body unread, draws no
    random number, sends no record, never sleeps and logs nothing. *)
Theorem special_paths_leave_the_body_unread buffer_grow env g req :
  captured env g req = false ->
  exists s,
    serve buffer_grow env g req = Ok (tt, s) /\
    body s = req_Body req /\ draws s = 0%nat /\
    sent (output s) = [] /\ slept (output s) = [] /\ stderr (output s) = "".
Proof.
  intros Hcap.
  destruct (serve_shape buffer_grow env g req)
    as (s & Hs & _ & _ & _ & _ & Hquiet & _).
  exists s. split; [exact Hs|]. exact (Hquiet Hcap).
Qed.

Lemma special_paths_leave_the_body_unread_witness :
  exists s,
    serve buffer_double env0 streaming mixed_config = Ok (tt, s) /\
    body s = req_Body mixed_config /\ draws s = 0%nat /\
    sent (output s) = [] /\ slept (output s) = [] /\ stderr (output s) = "".
Proof.
  apply (special_paths_leave_the_body_unread buffer_double env0 streaming
           mixed_config).
  reflexivity.
Defined.

(** X15.  Only the configuration path writes the package variables: every
    other request leaves them all as they were, and no request at all
    changes [bufferRequest], [storePayload] or [recordedCalls]. *)
Theorem only_configuration_changes_the_policy buffer_grow env g req :
  exists s,
    serve buffer_grow env g req = Ok (tt, s) /\
    (configured env g req = false -> globals s = g) /\
    bufferRequest (globals s) = bufferRequest g /\
    storePayload (globals s) = storePayload g /\
    Handler.recordedCalls (globals s) = Handler.recordedCalls g.
Proof.
  destruct (serve_shape buffer_grow env g req)
    as (s & Hs & _ & _ & _ & _ & _ & Hg & Hb & Hp & Hc & _).
  exists s. auto.
Qed.

(** ** The capture path *)

(** X16.  Every request on the capture path, whatever its body does, sends
    exactly one record, stamped with the current time and carrying the
    request's method and request URI verbatim; the policy is untouched; the
    answer is 200 with just the line "<path> received", or 500 with the
    error text first, the same line after it, and the error text logged. *)
Theorem one_record_per_captured_request buffer_grow env g req :
  captured env g req = true ->
  exists s r,
    serve buffer_grow env g req = Ok (tt, s) /\
    sent (output s) = [r] /\
    Timestamp r = Now env /\ Method r = req_Method req /\
    Uri r = URL_RequestURI req /\
    globals s = g /\
    (statusCode (output s) = 200 \/ statusCode (output s) = 500) /\
    (statusCode (output s) = 200 ->
     wrote (output s) = (URL_Path req +:+ " received") +:+ nl /\
     stderr (output s) = "") /\
    (statusCode (output s) = 500 ->
     exists e, wrote (output s)
               = (Error e +:+ nl) +:+ ((URL_Path req +:+ " received") +:+ nl) /\
               stderr (output s) = Error e +:+ nl).
Proof.
  intros Hcap.
  destruct (capture_shape buffer_grow env g req Hcap)
    as (br & hash & payload & o1 & b1 & Hs & Ho1 & _).
  do 2 eexists. split; [exact Hs|].
  destruct Ho1 as [[-> _] | (e & -> & _)]; cbn.
  - repeat split; auto. intros; discriminate.
  - repeat split; auto; try (intros; discriminate).
    intros _. exists e. split; reflexivity.
Qed.

Lemma one_record_per_captured_request_witness :
  exists s r,
    serve buffer_double env0 streaming (post "/upload" broken) = Ok (tt, s) /\
    sent (output s) = [r] /\
    Timestamp r = Now env0 /\ Method r = req_Method (post "/upload" broken) /\
    Uri r = URL_RequestURI (post "/upload" broken) /\
    globals s = streaming /\
    (statusCode (output s) = 200 \/ statusCode (output s) = 500) /\
    (statusCode (output s) = 200 ->
     wrote (output s) = (URL_Path (post "/upload" broken) +:+ " received") +:+ nl /\
     stderr (output s) = "") /\
    (statusCode (output s) = 500 ->
     exists e, wrote (output s)
               = (Error e +:+ nl)
                 +:+ ((URL_Path (post "/upload" broken) +:+ " received") +:+ nl) /\
               stderr (output s) = Error e +:+ nl).
Proof.
  apply (one_record_per_captured_request buffer_double env0 streaming
           (post "/upload" broken)).
  reflexivity.
Defined.

(** X17.  The digest field of every record is lowercase hex and has either
    64 characters (the 32 bytes of a SHA-256) or none; it is empty only for
    a streaming read that failed, which was answered 500. *)
Theorem digest_is_64_hex_or_empty buffer_grow env g req :
  captured env g req = true ->
  exists s r,
    serve buffer_grow env g req = Ok (tt, s) /\ sent (output s) = [r] /\
    is_lower_hex (PayloadHash r) = true /\
    (String.length (PayloadHash r) = 64%nat \/
     (PayloadHash r = "" /\ statusCode (output s) = 500 /\
      bufferRequest g || storePayload g = false)).
Proof.
  intros Hcap.
  destruct (capture_shape buffer_grow env g req Hcap)
    as (br & hash & payload & o1 & b1 & Hs & Ho1 & _).
  do 2 eexists. split; [exact Hs|]. cbn [output sent PayloadHash].
  split; [reflexivity|]. cbn [PayloadHash].
  split; [apply Claims.EncodeToString_lower_hex|].
  rewrite length_EncodeToString.
  destruct Ho1 as [[-> Hl] | (e & -> & [Hl | [-> Hb]])].
  - left. rewrite Hl. reflexivity.
  - left. rewrite Hl. reflexivity.
  - right. split; [reflexivity|]. split; [reflexivity | exact Hb].
Qed.

Lemma digest_is_64_hex_or_empty_witness :
  exists s r,
    serve buffer_double env0 streaming (post "/upload" hello) = Ok (tt, s) /\
    sent (output s) = [r] /\
    is_lower_hex (PayloadHash r) = true /\
    (String.length (PayloadHash r) = 64%nat \/
     (PayloadHash r = "" /\ statusCode (output s) = 500 /\
      bufferRequest streaming || storePayload streaming = false)).
Proof.
  apply (digest_is_64_hex_or_empty buffer_double env0 streaming
           (post "/upload" hello)).
  reflexivity.
Defined.

(** X18.  What the handler answers, records and logs does not depend on how
    the body arrives: two bodies with the same bytes and the same final
    error, cut into segments in any two ways, give the same output, in
    buffered mode always and in streaming mode under the reader contract. *)
Theorem digest_ignores_chunking buffer_grow env g m p u q b1 b2 :
  captured env g (MkRequest m p u q b1) = true ->
  content b1 = content b2 -> final b1 = final b2 ->
  bufferRequest g || storePayload g = true \/
  (no_empty_read b1 /\ no_empty_read b2) ->
  exists s1 s2,
    serve buffer_grow env g (MkRequest m p u q b1) = Ok (tt, s1) /\
    serve buffer_grow env g (MkRequest m p u q b2) = Ok (tt, s2) /\
    output s1 = output s2.
Proof.
  intros Hcap Hc Hf Hmode.
  assert (Hcap2 : captured env g (MkRequest m p u q b2) = true) by exact Hcap.
  assert (H1 := capture_exact buffer_grow env g (MkRequest m p u q b1) Hcap).
  assert (H2 := capture_exact buffer_grow env g (MkRequest m p u q b2) Hcap2).
  cbv zeta in H1, H2. cbn [req_Body req_Method URL_Path URL_RequestURI] in H1, H2.
  do 2 eexists.
  split; [apply H1; tauto|]. split; [apply H2; tauto|].
  cbn [output]. unfold reported. rewrite Hc, Hf. reflexivity.
Qed.

Lemma digest_ignores_chunking_witness :
  exists s1 s2,
    serve buffer_double env0 streaming
          (MkRequest "POST" "/upload" "/upload" ∅ hello) = Ok (tt, s1) /\
    serve buffer_double env0 streaming
          (MkRequest "POST" "/upload" "/upload" ∅ hello_whole) = Ok (tt, s2) /\
    output s1 = output s2.
Proof.
  apply (digest_ignores_chunking buffer_double env0 streaming
           "POST" "/upload" "/upload" ∅ hello hello_whole).
  - reflexivity.
  - reflexivity.
  - reflexivity.
  - right. split; repeat constructor; discriminate.
Defined.

(** X19.  The flags [-b] and [-s] are interchangeable: the handler only
    tests [bufferRequest || storePayload], so any two settings with one of
    them on answer, record and log the same, and both keep the payload. *)
Theorem buffer_flags_are_interchangeable buffer_grow env
    limit delay variance chance calls b1 p1 b2 p2 req :
  b1 || p1 = true -> b2 || p2 = true ->
  captured env (MkGlobals limit delay variance chance b1 p1 calls) req = true ->
  exists s1 s2,
    serve buffer_grow env (MkGlobals limit delay variance chance b1 p1 calls) req
    = Ok (tt, s1) /\
    serve buffer_grow env (MkGlobals limit delay variance chance b2 p2 calls) req
    = Ok (tt, s2) /\
    output s1 = output s2 /\ body s1 = body s2 /\
    exists r, sent (output s1) = [r] /\
              Payload r = string_of_list_byte (content (req_Body req)).
Proof.
  intros Hb1 Hb2 Hcap.
  assert (Hcap2 : captured env (MkGlobals limit delay variance chance b2 p2 calls)
                    req = true) by exact Hcap.
  assert (H1 := capture_exact buffer_grow env _ req Hcap).
  assert (H2 := capture_exact buffer_grow env _ req Hcap2).
  cbv zeta in H1, H2. cbn [bufferRequest storePayload] in H1, H2.
  rewrite Hb1 in H1. rewrite Hb2 in H2.
  do 2 eexists.
  split; [apply H1; tauto|]. split; [apply H2; tauto|].
  cbn [output body sent]. split; [reflexivity|]. split; [reflexivity|].
  eexists. split; reflexivity.
Qed.

Lemma buffer_flags_are_interchangeable_witness :
  exists s1 s2,
    serve buffer_double env0 (MkGlobals 0 0 0 0 true false []) (post "/upload" hello)
    = Ok (tt, s1) /\
    serve buffer_double env0 (MkGlobals 0 0 0 0 false true []) (post "/upload" hello)
    = Ok (tt, s2) /\
    output s1 = output s2 /\ body s1 = body s2 /\
    exists r, sent (output s1) = [r] /\
              Payload r
              = string_of_list_byte (content (req_Body (post "/upload" hello))).
Proof.
  apply (buffer_flags_are_interchangeable buffer_double env0 0 0 0 0 []
           true false false true (post "/upload" hello)); reflexivity.
Defined.

(** X20.  In buffered mode the record always describes the whole body,
    also for a reader that returns empty reads: the digest is the SHA-256
    of all the bytes, the size their number, the body is read to its final
    error, and the answer is 500 exactly when that error is not [io.EOF]
    itself. *)
Theorem buffered_mode_digests_the_whole_body buffer_grow env g req :
  captured env g req = true ->
  bufferRequest g || storePayload g = true ->
  exists s r,
    serve buffer_grow env g req = Ok (tt, s) /\ sent (output s) = [r] /\
    PayloadHash r = EncodeToString (Sha256.Sum256 (content (req_Body req))) /\
    PayloadSize r = wrap64 (Z.of_nat (length (content (req_Body req)))) /\
    body s = drained (req_Body req) /\
    (statusCode (output s) = 500 <-> final (req_Body req) <> EOF).
Proof.
  intros Hcap Hb.
  assert (H1 := capture_exact buffer_grow env g req Hcap (or_introl Hb)).
  cbv zeta in H1. rewrite Hb in H1.
  do 2 eexists. split; [exact H1|]. cbn [output sent body].
  split; [reflexivity|]. cbn [PayloadHash PayloadSize].
  split; [reflexivity|]. split; [reflexivity|]. split; [reflexivity|].
  unfold reported. destruct (final (req_Body req)); cbn;
    split; intros; congruence.
Qed.

Lemma buffered_mode_digests_the_whole_body_witness :
  exists s r,
    serve buffer_double env0 buffering (post "/upload" hello_stutter) = Ok (tt, s) /\
    sent (output s) = [r] /\
    PayloadHash r
    = EncodeToString
        (Sha256.Sum256 (content (req_Body (post "/upload" hello_stutter)))) /\
    PayloadSize r
    = wrap64 (Z.of_nat (length (content (req_Body (post "/upload" hello_stutter))))) /\
    body s = drained (req_Body (post "/upload" hello_stutter)) /\
    (statusCode (output s) = 500 <->
     final (req_Body (post "/upload" hello_stutter)) <> EOF).
Proof.
  apply (buffered_mode_digests_the_whole_body buffer_double env0 buffering
           (post "/upload" hello_stutter)); reflexivity.
Defined.

(** ** The pieces together *)

(** X21.  A captured request heads the next listing: the record it sends,
    once [storeCalls] has drained it after the earlier ones, is at index 0
    of the buffer, and an inspection request served from that buffer is
    answered 200 with this record's rendering first and the earlier
    records, newest first, after it. *)
Theorem captured_request_is_listed_first growslice buffer_grow env env' g
    callCount earlier req req' :
  1 <= callCount ->
  captured env g req = true ->
  overLimit env' g = false ->
  Contains (URL_Path req') "recordedRequests" = true ->
  exists s r st s',
    serve buffer_grow env g req = Ok (tt, s) /\ sent (output s) = [r] /\
    storeCalls growslice callCount (earlier ++ sent (output s)) = Some st /\
    history st = r :: rev earlier /\
    serve buffer_grow env' (with_history g (history st)) req' = Ok (tt, s') /\
    statusCode (output s') = 200 /\
    wrote (output s') = (String_ r +:+ nl) +:+ listing (rev earlier).
Proof.
  intros HC Hcap Hover Hins.
  destruct (capture_shape buffer_grow env g req Hcap)
    as (br & hash & payload & o1 & b1 & Hs & _).
  destruct (storeCalls_inv growslice callCount
              (earlier ++ [RequestRecord (Now env) (req_Method req)
                             (URL_RequestURI req) br (EncodeToString hash)
                             (string_of_list_byte payload)]) HC)
    as (st & Hst & _ & Hh).
  rewrite rev_unit in Hh.
  do 4 eexists. split; [exact Hs|]. cbn [output sent].
  split; [reflexivity|]. split; [exact Hst|]. split; [exact Hh|].
  unfold serve.
  rewrite (inspected_route buffer_grow env' (with_history g (history st)))
    by (reflexivity || assumption).
  rewrite inspect_exact.
  split; [reflexivity|]. cbn [output with_history Handler.recordedCalls wrote].
  rewrite Hh. split; reflexivity.
Qed.

Lemma captured_request_is_listed_first_witness :
  exists s r st s',
    serve buffer_double env0 streaming (post "/upload" hello) = Ok (tt, s) /\
    sent (output s) = [r] /\
    storeCalls growslice_double 1 ([rec_named "A"] ++ sent (output s))
    = Some st /\
    history st = r :: rev [rec_named "A"] /\
    serve buffer_double env0 (with_history streaming (history st))
          (post "/recordedRequests" hello) = Ok (tt, s') /\
    statusCode (output s') = 200 /\
    wrote (output s') = (String_ r +:+ nl) +:+ listing (rev [rec_named "A"]).
Proof.
  apply (captured_request_is_listed_first growslice_double buffer_double env0 env0
           streaming 1 [rec_named "A"] (post "/upload" hello)
           (post "/recordedRequests" hello)); first [lia | reflexivity].
Defined.

(** X22.  The limit can lock the configuration path out: once a
    configuration request has set a positive [limit] below the goroutine
    count, every later request at that count, a configuration request
    included, is answered 503 and leaves the policy as it is, so the limit
    cannot be raised again over HTTP. *)
Theorem limit_locks_out_configuration buffer_grow env g req n :
  configured env g req = true ->
  Get (URL_Query req) "limit" = Itoa n ->
  0 < n < NumGoroutine env -> n <= 2 ^ 63 - 1 ->
  exists s,
    serve buffer_grow env g req = Ok (tt, s) /\
    statusCode (output s) = 200 /\ goroutinelimit (globals s) = n /\
    forall req', exists s',
      serve buffer_grow env (globals s) req' = Ok (tt, s') /\
      statusCode (output s') = 503 /\ globals s' = globals s.
Proof.
  intros Hconf Hq Hn Hmax. unfold serve at 1.
  rewrite (configured_route buffer_grow env g) by (reflexivity || exact Hconf).
  rewrite configure_run. cbv zeta.
  eexists. split; [reflexivity|]. cbn [output globals statusCode status default].
  split; [reflexivity|].
  assert (Hlim : (setFromQueryParam (Get (URL_Query req) "limit")
                    (goroutinelimit g)).1 = n).
  { rewrite Hq. unfold setFromQueryParam.
    assert (Ha : Atoi (Itoa n) = inl n) by (apply Atoi_Itoa; unfold is_int; lia).
    destruct (String.eqb_spec "" (Itoa n)) as [He|_].
    - rewrite <- He in Ha. discriminate.
    - cbn [negb]. rewrite Ha. reflexivity. }
  cbn [goroutinelimit]. split; [exact Hlim|].
  intros req'.
  match goal with
  | |- context [serve buffer_grow env ?g' req'] =>
      destruct (serve_shape buffer_grow env g' req')
        as (s' & Hs' & H503 & _ & _ & _ & _ & Hglob & _);
      assert (Hover : overLimit env g' = true)
  end.
  { unfold overLimit. cbn [goroutinelimit]. rewrite Hlim.
    destruct (Z.gtb_spec n 0); [|lia].
    destruct (Z.gtb_spec (NumGoroutine env) n); [reflexivity|lia]. }
  exists s'. split; [exact Hs'|]. split; [apply H503; exact Hover|].
  apply Hglob. unfold configured. rewrite Hover. reflexivity.
Qed.

Lemma limit_locks_out_configuration_witness :
  exists s,
    serve buffer_double crowded streaming (config {[ "limit" := ["2"] ]})
    = Ok (tt, s) /\
    statusCode (output s) = 200 /\ goroutinelimit (globals s) = 2 /\
    forall req', exists s',
      serve buffer_double crowded (globals s) req' = Ok (tt, s') /\
      statusCode (output s') = 503 /\ globals s' = globals s.
Proof.
  apply (limit_locks_out_configuration buffer_double crowded streaming
           (config {[ "limit" := ["2"] ]}) 2).
  - reflexivity.
  - reflexivity.
  - simpl. lia.
  - lia.
Defined.

End Properties.
